(** * photo-manager: ingestion pipeline and query engine

    A shallow embedding of the Go sources

      - internal/exif/exif_parser.go       (ExtractExifData)
      - internal/database/db.go            (Photo, FileManager.SavePhoto)
      - internal/service/photo_service.go  (UploadPhoto, GetPhotos,
                                            GetPhotosByTimeline)

    together with small executable stand-ins for the parts of the Go
    standard library and of gorm/SQLite that the code calls.  The file
    system is a finite map from cleaned paths to file contents, the
    [photos] table is the list of its rows in rowid order, and every
    function that touches them threads the state explicitly.

    Conventions of the model:
    - all instants are UTC and are compared as instants;
    - integers are unbounded ([Z]); the program only adds small
      constants to the years, months and lengths it handles;
    - directories are implicit: a path exists when a file lives at it;
    - [os.Remove] removes the file it is given; the program ignores its
      error at every call;
    - the bookkeeping columns of [gorm.Model] other than the key are
      left out, and no row is ever soft-deleted (the program has no
      deletion);
    - an operation of the operating system or of the database fails
      where the state says so (a missing file, a unique index) or where
      the environment of the call injects a failure;
    - rows that compare equal under an ORDER BY come out in an order the
      engine chooses; nothing below depends on that choice. *)

From Stdlib Require Import ZArith String Ascii List DecimalString Lia.
From stdpp Require Import gmap strings list sorting.

Open Scope string_scope.
Open Scope Z_scope.

(** ** Go standard library: package [time]

    An instant is the number of nanoseconds since 1970-01-01T00:00:00Z.
    All instants live in UTC: the calendar functions below read the
    proleptic Gregorian calendar off the day number. *)
Module time.

Definition Time := Z.

Definition Nanosecond : Z := 1.
Definition nsPerSecond : Z := 1000000000.
Definition nsPerDay : Z := 86400 * nsPerSecond.
Definition January : Z := 1.

(** Day number (0 = 1970-01-01) of a civil date with [1 <= m <= 12]. *)
Definition days_from_civil (y m d : Z) : Z :=
  let y' := if m <=? 2 then y - 1 else y in
  let era := y' / 400 in
  let yoe := y' - era * 400 in
  let mp := if 2 <? m then m - 3 else m + 9 in
  let doy := (153 * mp + 2) / 5 + d - 1 in
  let doe := yoe * 365 + yoe / 4 - yoe / 100 + doy in
  era * 146097 + doe - 719468.

(** Civil date (year, month, day) of a day number. *)
Definition civil_from_days (z : Z) : Z * Z * Z :=
  let z' := z + 719468 in
  let era := z' / 146097 in
  let doe := z' - era * 146097 in
  let yoe := (doe - doe / 1460 + doe / 36524 - doe / 146096) / 365 in
  let y := yoe + era * 400 in
  let doy := doe - (365 * yoe + yoe / 4 - yoe / 100) in
  let mp := (5 * doy + 2) / 153 in
  let d := doy - (153 * mp + 2) / 5 + 1 in
  let m := if mp <? 10 then mp + 3 else mp - 9 in
  (if m <=? 2 then y + 1 else y, m, d).

(** [time.Date(year, month, day, hour, min, sec, nsec, time.UTC)]:
    the month overflows into the year, everything below the month is
    added linearly. *)
Definition Date (year month day hour min sec nsec : Z) : Time :=
  let m := month - 1 in
  let year' := year + m / 12 in
  let month' := m mod 12 + 1 in
  (days_from_civil year' month' 1 + (day - 1)) * nsPerDay
  + hour * (3600 * nsPerSecond) + min * (60 * nsPerSecond)
  + sec * nsPerSecond + nsec.

Definition date (t : Time) : Z * Z * Z := civil_from_days (t / nsPerDay).
Definition Year (t : Time) : Z := fst (fst (date t)).
Definition Month (t : Time) : Z := snd (fst (date t)).
Definition Day (t : Time) : Z := snd (date t).

(** [t.AddDate(years, months, days)] goes through the civil date and
    back through [Date]; the time of day (hour, minute, second and
    nanosecond of [t]) is passed on as one count of nanoseconds. *)
Definition AddDate (t : Time) (years months days : Z) : Time :=
  Date (Year t + years) (Month t + months) (Day t + days)
       0 0 0 (t mod nsPerDay).

Definition Add (t : Time) (d : Z) : Time := t + d.

(** [appendInt]: decimal digits of [x], zero-padded to [width], with a
    leading minus sign for negative numbers. *)
Definition appendInt (x : Z) (width : nat) : string :=
  let digits := NilZero.string_of_uint (N.to_uint (Z.to_N (Z.abs x))) in
  let padded :=
    (String.concat "" (repeat "0" (width - String.length digits)%nat)
     ++ digits)%string in
  if x <? 0 then ("-" ++ padded)%string else padded.

(** The two layouts the program uses: ["2006"] and ["01"]. *)
Definition Format_2006 (t : Time) : string := appendInt (Year t) 4.
Definition Format_01 (t : Time) : string := appendInt (Month t) 2.

End time.

(** ** Go standard library: package [path/filepath] (Unix) *)
Module filepath.

(** The elements of a path between its separators. *)
Fixpoint segments (s : string) : list string :=
  match s with
  | EmptyString => [EmptyString]
  | String c s' =>
      if Ascii.eqb c "/" then EmptyString :: segments s'
      else match segments s' with
           | seg :: rest => String c seg :: rest
           | [] => [String c EmptyString]
           end
  end.

(** One element of [Clean]'s scan; [out] holds the kept elements,
    last one first. *)
Definition clean_step (rooted : bool) (out : list string) (seg : string)
  : list string :=
  if String.eqb seg "" || String.eqb seg "." then out
  else if String.eqb seg ".." then
    match out with
    | top :: rest => if String.eqb top ".." then seg :: out else rest
    | [] => if rooted then [] else [seg]
    end
  else seg :: out.

Definition Clean (p : string) : string :=
  if String.eqb p "" then "."
  else
    let rooted := String.prefix "/" p in
    let kept := rev (fold_left (clean_step rooted) (segments p) []) in
    let body := String.concat "/" kept in
    if rooted then ("/" ++ body)%string
    else if String.eqb body "" then "." else body.

(** [Join]: empty elements are ignored, the result is cleaned, and the
    join of no (non-empty) element is the empty string. *)
Definition Join (elem : list string) : string :=
  match List.filter (fun e => negb (String.eqb e "")) elem with
  | [] => ""
  | ne => Clean (String.concat "/" ne)
  end.

End filepath.

(** ** Calendar arithmetic

    Months are numbered through the years: month [k] is month
    [k mod 12 + 1] of year [k / 12]. *)

(** [f] holds at [fuel] consecutive integers from [i] on. *)
Fixpoint all_from (fuel : nat) (i : Z) (f : Z -> bool) : bool :=
  match fuel with
  | O => true
  | S fuel' => f i && all_from fuel' (i + 1) f
  end.

(** The day number of the first day of month [k]. *)
Definition month_day (k : Z) : Z :=
  time.days_from_civil (k / 12) (k mod 12 + 1) 1.

(** The month a day number lies in. *)
Definition month_index_of_day (z : Z) : Z :=
  let '(y, m, d) := time.civil_from_days z in 12 * y + (m - 1).

(** The month an instant lies in. *)
Definition month_index (t : time.Time) : Z :=
  12 * time.Year t + (time.Month t - 1).

(** The civil date of day [z] is a date, is the date of [z], and lies
    in its month. *)
Definition day_check (z : Z) : bool :=
  let '(y, m, d) := time.civil_from_days z in
  (1 <=? m) && (m <=? 12) && (1 <=? d)
  && (time.days_from_civil y m d =? z)
  && (month_day (12 * y + (m - 1)) <=? z)
  && (z <? month_day (12 * y + m)).

(** Month [k] starts before month [k + 1]. *)
Definition month_check (k : Z) : bool := month_day k <? month_day (k + 1).

(** ** Errors

    One constructor per error the program builds or receives; the
    wrapping constructors carry their cause the way [fmt.Errorf] with
    [%w] does. *)
Inductive error : Type :=
  (* errors of the libraries *)
  | io_EOF
  | errorString (msg : string)
  | os_ErrNotExist (path : string)
  | gorm_ErrRecordNotFound
  | sqlite_ErrConstraintUnique (column : string)
  (* exif.ExtractExifData *)
  | ErrExifOpen (cause : error)
  | ErrExifDecode (cause : error)
  (* storage.FileManager.SavePhoto *)
  | ErrSaveMkdir (dir : string) (cause : error)
  | ErrSaveOpen (cause : error)
  | ErrSaveCreate (path : string) (cause : error)
  | ErrSaveCopy (path : string) (cause : error)
  (* service.calculateMD5Hash *)
  | ErrHashOpen (cause : error)
  | ErrHashCopy (cause : error)
  (* service.PhotoService.UploadPhoto *)
  | ErrTempDir (cause : error)
  | ErrOpenUpload (cause : error)
  | ErrCreateTemp (cause : error)
  | ErrCopyTemp (cause : error)
  | ErrExtractExif (cause : error)
  | ErrCalcHash (cause : error)
  | ErrDuplicate (hash existingPath : string)
  | ErrCheckDuplicate (cause : error)
  | ErrSaveStorage (cause : error)
  | ErrSaveMetadata (cause : error)
  (* service.PhotoService.GetPhotos / GetPhotosByTimeline *)
  | ErrMonthRequiresYear
  | ErrFindPhotos (cause : error)
  | ErrTimeline (cause : error).

(** [err.Error()] for the two library errors whose text the program
    inspects. *)
Definition Error (e : error) : string :=
  match e with
  | io_EOF => "EOF"
  | errorString msg => msg
  | _ => ""
  end.

Definition error_eqb_EOF (e : error) : bool :=
  match e with io_EOF => true | _ => false end.

(** ** The environment of one call *)

Definition bytes := list Byte.byte.

(** The places where the operating system or the database can fail
    independently of the modelled state. *)
Inductive Fault : Type :=
  | F_MkdirTemp | F_OpenUpload | F_CreateTemp | F_CopyTemp
  | F_ExifOpen | F_HashOpen | F_HashCopy
  | F_DBFirst | F_DBCreate | F_DBFind
  | F_SaveMkdir | F_SaveOpen | F_SaveCreate | F_SaveCopy.

(** A decoded EXIF block; [x.DateTime()] succeeds exactly when
    [DateTime] holds an instant. *)
Module goexif.
Record Exif := { DateTime : option time.Time }.
End goexif.

Module database.

(** [Photo]: a row of the [photos] table.  [Filename], [StoredPath]
    and [Hash] each carry a [uniqueIndex]. *)
Record Photo := {
  ID : Z;
  Filename : string;
  StoredPath : string;
  ThumbnailPath : string;
  UploadDate : time.Time;
  ExifDate : option time.Time;
  Hash : string;
  FileSize : Z;
  MimeType : string;
  Width : Z;
  Height : Z;
  Description : string;
  Tags : string
}.

Definition with_ID (id : Z) (p : Photo) : Photo :=
  {| ID := id; Filename := Filename p; StoredPath := StoredPath p;
     ThumbnailPath := ThumbnailPath p; UploadDate := UploadDate p;
     ExifDate := ExifDate p; Hash := Hash p; FileSize := FileSize p;
     MimeType := MimeType p; Width := Width p; Height := Height p;
     Description := Description p; Tags := Tags p |}.

(** The table: its rows in rowid order and the next key it hands out. *)
Record DB := { rows : list Photo; next_id : Z }.

End database.

(** What the program takes from its libraries and its host. *)
Record Platform := {
  (* hex.EncodeToString(md5 digest of the content) *)
  md5_hex : bytes -> string;
  (* goexif's exif.Decode on the content of a file *)
  exif_Decode : bytes -> error + goexif.Exif;
  (* the ordering an ORDER BY text denotes, if SQLite accepts it *)
  sql_order : string -> option (database.Photo -> database.Photo -> bool);
  (* os.TempDir() *)
  os_TempDir : string
}.

(** What one call sees of the outside: the clock and the failures
    injected into its system calls. *)
Record Env := {
  now : time.Time;
  fault : Fault -> option error
}.

(** [*multipart.FileHeader]: the uploaded part. *)
Record FileHeader := {
  fh_Filename : string;
  fh_Size : Z;
  fh_ContentType : string;
  fh_Content : bytes
}.

(** The state the program acts on. *)
Record World := {
  catalog : database.DB;
  files : gmap string bytes
}.

Definition set_files (fs : gmap string bytes) (w : World) : World :=
  {| catalog := catalog w; files := fs |}.
Definition set_catalog (db : database.DB) (w : World) : World :=
  {| catalog := db; files := files w |}.

(** [os.Create] followed by a complete [io.Copy]. *)
Definition write_file (path : string) (content : bytes) (w : World) : World :=
  set_files (<[path := content]> (files w)) w.
(** [os.Remove]; its error is dropped at every call site. *)
Definition os_Remove (path : string) (w : World) : World :=
  set_files (delete path (files w)) w.
(** [os.Open] followed by reading the whole file. *)
Definition os_Open (path : string) (w : World) : error + bytes :=
  match files w !! path with
  | Some content => inr content
  | None => inl (os_ErrNotExist path)
  end.

(** A system call that reads a file: it fails when the environment says
    so, or when the file is not there. *)
Definition open_read (env : Env) (f : Fault) (path : string) (w : World)
  : error + bytes :=
  match fault env f with
  | Some e => inl e
  | None => os_Open path w
  end.

(** ** internal/exif/exif_parser.go *)
Module exif.

Record ExifData := { DateTime : option time.Time }.

(** [ExtractExifData(filePath)]; Go's [(nil, nil)] is [inr None]. *)
Definition ExtractExifData (P : Platform) (env : Env) (filePath : string)
    (w : World) : error + option ExifData :=
  match open_read env F_ExifOpen filePath w with
  | inl err => inl (ErrExifOpen err)
  | inr f =>
      match exif_Decode P f with
      | inl err =>
          if error_eqb_EOF err || String.eqb (Error err) "no exif data"
          then inr None
          else inl (ErrExifDecode err)
      | inr x =>
          let exifData :=
            match goexif.DateTime x with
            | Some tm => {| DateTime := Some tm |}
            | None => {| DateTime := None |}
            end in
          match DateTime exifData with
          | None => inr None
          | Some _ => inr (Some exifData)
          end
      end
  end.

End exif.

(** ** internal/database/db.go, package [storage] *)
Module storage.

Record FileManager := { BaseStoragePath : string }.

(** [fm.SavePhoto(file, photoDate)]: the path written, or the error.
    A copy that fails leaves the created, empty file behind. *)
Definition SavePhoto (fm : FileManager) (env : Env) (file : FileHeader)
    (photoDate : time.Time) (w : World) : (error + string) * World :=
  let year := time.Format_2006 photoDate in
  let month := time.Format_01 photoDate in
  let targetDir := filepath.Join [BaseStoragePath fm; year; month] in
  match fault env F_SaveMkdir with
  | Some err => (inl (ErrSaveMkdir targetDir err), w)
  | None =>
      let filePath := filepath.Join [targetDir; fh_Filename file] in
      match fault env F_SaveOpen with
      | Some err => (inl (ErrSaveOpen err), w)
      | None =>
          match fault env F_SaveCreate with
          | Some err => (inl (ErrSaveCreate filePath err), w)
          | None =>
              match fault env F_SaveCopy with
              | Some err =>
                  (inl (ErrSaveCopy filePath err), write_file filePath [] w)
              | None =>
                  (inr filePath, write_file filePath (fh_Content file) w)
              end
          end
      end
  end.

End storage.

(** ** gorm over SQLite, as far as the program uses it *)
Module gorm.
Import database.

(** [db.Where("hash = ?", hash).First(&photo)]: the matching row with
    the smallest key. *)
Definition First_by_hash (env : Env) (db : DB) (hash : string)
  : error + Photo :=
  match fault env F_DBFirst with
  | Some e => inl e
  | None =>
      match List.find (fun r => String.eqb (Hash r) hash) (rows db) with
      | Some r => inr r
      | None => inl gorm_ErrRecordNotFound
      end
  end.

(** The unique index an insertion of [p] would violate, if any. *)
Definition unique_violation (db : DB) (p : Photo) : option string :=
  if existsb (fun r => String.eqb (Filename r) (Filename p)) (rows db)
  then Some "photos.filename"
  else if existsb (fun r => String.eqb (StoredPath r) (StoredPath p)) (rows db)
  then Some "photos.stored_path"
  else if existsb (fun r => String.eqb (Hash r) (Hash p)) (rows db)
  then Some "photos.hash"
  else None.

(** [db.Create(&photo)]: the row gets the next key, unless a unique
    index (or the environment) rejects it. *)
Definition Create (env : Env) (db : DB) (p : Photo) : error + DB * Photo :=
  match fault env F_DBCreate with
  | Some e => inl e
  | None =>
      match unique_violation db p with
      | Some column => inl (sqlite_ErrConstraintUnique column)
      | None =>
          let p' := with_ID (next_id db) p in
          inr ({| rows := rows db ++ [p']; next_id := next_id db + 1 |}, p')
      end
  end.

End gorm.

(** ** SQLite, as far as the queries of the program use it *)
Module sqlite.
Import database.

Definition lower (c : ascii) : ascii :=
  let n := nat_of_ascii c in
  if (65 <=? n)%nat && (n <=? 90)%nat then ascii_of_nat (n + 32) else c.

(** [s LIKE pat]: [%] stands for any run of characters, [_] for any
    one character, and letters match without regard to case. *)
Fixpoint like (pat : string) : string -> bool :=
  match pat with
  | EmptyString => fun s => String.eqb s ""
  | String c pat' =>
      if Ascii.eqb c "%" then
        fix any (s : string) : bool :=
          like pat' s
          || match s with
             | EmptyString => false
             | String _ s' => any s'
             end
      else if Ascii.eqb c "_" then
        fun s => match s with
                 | EmptyString => false
                 | String _ s' => like pat' s'
                 end
      else
        fun s => match s with
                 | EmptyString => false
                 | String d s' => Ascii.eqb (lower c) (lower d) && like pat' s'
                 end
  end.

(** [v BETWEEN lo AND hi]; a NULL operand never satisfies it. *)
Definition between (v : option time.Time) (lo hi : time.Time) : bool :=
  match v with
  | Some x => (lo <=? x) && (x <=? hi)
  | None => false
  end.

(** Position of [a] relative to [b] under [DESC]: larger values come
    first and NULL, the smallest value, comes last. *)
Definition compare_desc (a b : option time.Time) : comparison :=
  match a, b with
  | Some x, Some y => y ?= x
  | Some _, None => Lt
  | None, Some _ => Gt
  | None, None => Eq
  end.

(** The ordering one ORDER BY term denotes. *)
Definition order_term (P : Platform) (term : string)
  : option (Photo -> Photo -> comparison) :=
  if String.eqb term "exif_date DESC"
  then Some (fun p q => compare_desc (ExifDate p) (ExifDate q))
  else if String.eqb term "upload_date DESC"
  then Some (fun p q =>
               compare_desc (Some (UploadDate p)) (Some (UploadDate q)))
  else match sql_order P term with
       | Some leb =>
           Some (fun p q => if leb p q then if leb q p then Eq else Lt else Gt)
       | None => None
       end.

(** Several terms order lexicographically. *)
Fixpoint order_terms (P : Platform) (terms : list string)
  : option (Photo -> Photo -> comparison) :=
  match terms with
  | [] => Some (fun _ _ => Eq)
  | term :: terms' =>
      match order_term P term, order_terms P terms' with
      | Some c, Some c' =>
          Some (fun p q => match c p q with Eq => c' p q | o => o end)
      | _, _ => None
      end
  end.

Definition not_after (c : Photo -> Photo -> comparison) (p q : Photo) : Prop :=
  c p q <> Gt.

#[global] Instance not_after_dec c p q : Decision (not_after c p q).
Proof. unfold not_after. destruct (c p q); [left | left | right]; congruence. Defined.

End sqlite.

(** ** gorm queries *)
Module query.
Import database.

(** The statement a chain of [Where], [Order], [Limit] and [Offset]
    calls has built. *)
Record Query := {
  wheres : list (Photo -> bool);
  orders : list string;
  limit : option Z;
  offset : option Z
}.

Definition Model : Query :=
  {| wheres := []; orders := []; limit := None; offset := None |}.
Definition Where (cond : Photo -> bool) (q : Query) : Query :=
  {| wheres := wheres q ++ [cond]; orders := orders q;
     limit := limit q; offset := offset q |}.
Definition Order (term : string) (q : Query) : Query :=
  {| wheres := wheres q; orders := orders q ++ [term];
     limit := limit q; offset := offset q |}.
Definition Limit (n : Z) (q : Query) : Query :=
  {| wheres := wheres q; orders := orders q;
     limit := Some n; offset := offset q |}.
Definition Offset (n : Z) (q : Query) : Query :=
  {| wheres := wheres q; orders := orders q;
     limit := limit q; offset := Some n |}.

Definition paginate (q : Query) (l : list Photo) : list Photo :=
  let l := match offset q with
           | Some n => drop (Z.to_nat n) l
           | None => l
           end in
  match limit q with
  | Some n => take (Z.to_nat n) l
  | None => l
  end.

(** [query.Find(&photos)]: select, order, then cut the page out. *)
Definition Find (P : Platform) (env : Env) (q : Query) (db : DB)
  : error + list Photo :=
  match fault env F_DBFind with
  | Some e => inl e
  | None =>
      match sqlite.order_terms P (orders q) with
      | None => inl (errorString "SQL logic error")
      | Some c =>
          let selected :=
            List.filter (fun r => forallb (fun cond => cond r) (wheres q))
                        (rows db) in
          inr (paginate q (merge_sort (sqlite.not_after c) selected))
      end
  end.

End query.

(** ** internal/service/photo_service.go *)
Module service.
Import database.

Record PhotoService := { FileManager : storage.FileManager }.

(** [calculateMD5Hash(filePath)]. *)
Definition calculateMD5Hash (P : Platform) (env : Env) (filePath : string)
    (w : World) : error + string :=
  match open_read env F_HashOpen filePath w with
  | inl err => inl (ErrHashOpen err)
  | inr content =>
      match fault env F_HashCopy with
      | Some err => inl (ErrHashCopy err)
      | None => inr (md5_hex P content)
      end
  end.

(** What [UploadPhoto] returns: Go's pair of a photo pointer and an
    error, either of which may be nil. *)
Definition UploadResult : Type := option Photo * option error.

(** The locals of [UploadPhoto] that are live after its step 4. *)
Record Staged := {
  st_uploadDate : time.Time;
  st_tempFilePath : string;
  st_photoOrganizeDate : time.Time;
  st_exifDateTime : option time.Time;
  st_hash : string
}.

(** Steps 1 to 4 of [UploadPhoto]: stage the upload in the temporary
    directory, read its EXIF date and its hash, and look the hash up.
    A return before step 5 runs the deferred [os.Remove] of the
    temporary file (once that file was created). *)
Definition UploadPhoto_check (P : Platform) (env : Env) (file : FileHeader)
    (w : World) : (UploadResult + Staged) * World :=
  let uploadDate := now env in
  let tempDir := filepath.Join [os_TempDir P; "photo-manager-temp"] in
  match fault env F_MkdirTemp with
  | Some err => (inl (None, Some (ErrTempDir err)), w)
  | None =>
  let tempFilePath := filepath.Join [tempDir; fh_Filename file] in
  match fault env F_OpenUpload with
  | Some err => (inl (None, Some (ErrOpenUpload err)), w)
  | None =>
  match fault env F_CreateTemp with
  | Some err => (inl (None, Some (ErrCreateTemp err)), w)
  | None =>
  let w := write_file tempFilePath [] w in
  match fault env F_CopyTemp with
  | Some err =>
      (inl (None, Some (ErrCopyTemp err)), os_Remove tempFilePath w)
  | None =>
  let w := write_file tempFilePath (fh_Content file) w in
  (* 2. EXIF *)
  match exif.ExtractExifData P env tempFilePath w with
  | inl err =>
      (inl (None, Some (ErrExtractExif err)), os_Remove tempFilePath w)
  | inr exifData =>
  let '(photoOrganizeDate, exifDateTime) :=
    match exifData with
    | Some {| exif.DateTime := Some d |} => (d, Some d)
    | _ => (uploadDate, None)
    end in
  (* 3. hash *)
  match calculateMD5Hash P env tempFilePath w with
  | inl err =>
      (inl (None, Some (ErrCalcHash err)), os_Remove tempFilePath w)
  | inr hash =>
  (* 4. duplicates *)
  match gorm.First_by_hash env (catalog w) hash with
  | inr existingPhoto =>
      (inl (Some existingPhoto,
            Some (ErrDuplicate hash (StoredPath existingPhoto))),
       os_Remove tempFilePath w)
  | inl gorm_ErrRecordNotFound =>
      (inr {| st_uploadDate := uploadDate;
              st_tempFilePath := tempFilePath;
              st_photoOrganizeDate := photoOrganizeDate;
              st_exifDateTime := exifDateTime;
              st_hash := hash |}, w)
  | inl err =>
      (inl (None, Some (ErrCheckDuplicate err)), os_Remove tempFilePath w)
  end end end end end end end.

(** Steps 5 to 7 of [UploadPhoto]: place the file, insert the row,
    remove the placed file again when the insertion fails; then the
    deferred removal of the temporary file. *)
Definition UploadPhoto_store (s : PhotoService) (env : Env)
    (file : FileHeader) (st : Staged) (w : World) : UploadResult * World :=
  match storage.SavePhoto (FileManager s) env file
          (st_photoOrganizeDate st) w with
  | (inl err, w) =>
      ((None, Some (ErrSaveStorage err)), os_Remove (st_tempFilePath st) w)
  | (inr storedPath, w) =>
      let photo :=
        {| ID := 0;
           Filename := fh_Filename file;
           StoredPath := storedPath;
           ThumbnailPath := "";
           UploadDate := st_uploadDate st;
           ExifDate := st_exifDateTime st;
           Hash := st_hash st;
           FileSize := fh_Size file;
           MimeType := fh_ContentType file;
           Width := 0;
           Height := 0;
           Description := "";
           Tags := "" |} in
      match gorm.Create env (catalog w) photo with
      | inl err =>
          let w := os_Remove storedPath w in
          ((None, Some (ErrSaveMetadata err)),
           os_Remove (st_tempFilePath st) w)
      | inr (db, photo) =>
          ((Some photo, None),
           os_Remove (st_tempFilePath st) (set_catalog db w))
      end
  end.

(** [s.UploadPhoto(file)]. *)
Definition UploadPhoto (P : Platform) (s : PhotoService) (env : Env)
    (file : FileHeader) (w : World) : UploadResult * World :=
  match UploadPhoto_check P env file w with
  | (inl result, w) => (result, w)
  | (inr st, w) => UploadPhoto_store s env file st w
  end.

(** Two requests served at the same time, the second one passing its
    duplicate check before the first one has inserted its row. *)
Definition UploadPhoto_overlapped (P : Platform) (s : PhotoService)
    (env1 env2 : Env) (file1 file2 : FileHeader) (w : World)
  : UploadResult * UploadResult * World :=
  match UploadPhoto_check P env1 file1 w with
  | (inl r1, w) =>
      let '(r2, w) := UploadPhoto P s env2 file2 w in (r1, r2, w)
  | (inr st1, w) =>
      match UploadPhoto_check P env2 file2 w with
      | (inl r2, w) =>
          let '(r1, w) := UploadPhoto_store s env1 file1 st1 w in (r1, r2, w)
      | (inr st2, w) =>
          let '(r1, w) := UploadPhoto_store s env1 file1 st1 w in
          let '(r2, w) := UploadPhoto_store s env2 file2 st2 w in
          (r1, r2, w)
      end
  end.

(** [PhotoFilter]; a zero or empty field is a filter that is not set. *)
Module PhotoFilter.
Record t := {
  Year : Z;
  Month : Z;
  Filename : string;
  Tag : string;
  Offset : Z;
  Limit : Z;
  OrderBy : string
}.
End PhotoFilter.

(** The two date conditions of [GetPhotos]. *)
Definition date_clause (startDate endDate : time.Time) (r : Photo) : bool :=
  sqlite.between (ExifDate r) startDate endDate
  || sqlite.between (Some (UploadDate r)) startDate endDate.

Definition year_start (filter : PhotoFilter.t) : time.Time :=
  time.Date (PhotoFilter.Year filter) time.January 1 0 0 0 0.
Definition year_end (filter : PhotoFilter.t) : time.Time :=
  time.Add (time.AddDate (year_start filter) 1 0 0) (- time.Nanosecond).
Definition month_start (filter : PhotoFilter.t) : time.Time :=
  time.Date (PhotoFilter.Year filter) (PhotoFilter.Month filter) 1 0 0 0 0.
Definition month_end (filter : PhotoFilter.t) : time.Time :=
  time.Add (time.AddDate (month_start filter) 0 1 0) (- time.Nanosecond).

Definition when (b : bool) (f : query.Query -> query.Query) (q : query.Query)
  : query.Query :=
  if b then f q else q.

(** [s.GetPhotos(filter)]. *)
Definition GetPhotos (P : Platform) (env : Env) (filter : PhotoFilter.t)
    (db : DB) : error + list Photo :=
  let q := query.Model in
  let q := when (negb (PhotoFilter.Year filter =? 0))
             (query.Where (date_clause (year_start filter) (year_end filter)))
             q in
  if negb (PhotoFilter.Month filter =? 0) && (PhotoFilter.Year filter =? 0)
  then inl ErrMonthRequiresYear
  else
    let q := when (negb (PhotoFilter.Month filter =? 0))
               (query.Where
                  (date_clause (month_start filter) (month_end filter)))
               q in
    let q := when (negb (String.eqb (PhotoFilter.Filename filter) ""))
               (query.Where (fun r =>
                  sqlite.like ("%" ++ PhotoFilter.Filename filter ++ "%")
                              (Filename r)))
               q in
    let q := when (negb (String.eqb (PhotoFilter.Tag filter) ""))
               (query.Where (fun r =>
                  sqlite.like ("%" ++ PhotoFilter.Tag filter ++ "%") (Tags r)))
               q in
    let q := if negb (String.eqb (PhotoFilter.OrderBy filter) "")
             then query.Order (PhotoFilter.OrderBy filter) q
             else query.Order "upload_date DESC"
                    (query.Order "exif_date DESC" q) in
    let q := when (0 <? PhotoFilter.Limit filter)
               (query.Limit (PhotoFilter.Limit filter)) q in
    let q := when (0 <? PhotoFilter.Offset filter)
               (query.Offset (PhotoFilter.Offset filter)) q in
    match query.Find P env q db with
    | inl err => inl (ErrFindPhotos err)
    | inr photos => inr photos
    end.

(** The date a photo is filed under in the timeline. *)
Definition dateToUse (photo : Photo) : time.Time :=
  match ExifDate photo with
  | Some d => d
  | None => UploadDate photo
  end.

(** One iteration of the grouping loop of [GetPhotosByTimeline]. *)
Definition timeline_step (limitPerMonth : Z)
    (timeline : gmap Z (gmap Z (list Photo))) (photo : Photo)
  : gmap Z (gmap Z (list Photo)) :=
  let year := time.Year (dateToUse photo) in
  let month := time.Month (dateToUse photo) in
  let timeline :=
    match timeline !! year with
    | Some _ => timeline
    | None => <[year := ∅]> timeline
    end in
  let months : gmap Z (list Photo) := default ∅ (timeline !! year) in
  let months :=
    match months !! month with
    | Some _ => months
    | None => <[month := []]> months
    end in
  let bucket : list Photo := default [] (months !! month) in
  let months :=
    if (limitPerMonth =? 0) || (Z.of_nat (length bucket) <? limitPerMonth)
    then <[month := (bucket ++ [photo])%list]> months
    else months in
  <[year := months]> timeline.

(** [s.GetPhotosByTimeline(limitPerMonth)]. *)
Definition GetPhotosByTimeline (P : Platform) (env : Env) (limitPerMonth : Z)
    (db : DB) : error + gmap Z (gmap Z (list Photo)) :=
  match query.Find P env
          (query.Order "upload_date DESC"
             (query.Order "exif_date DESC" query.Model)) db with
  | inl err => inl (ErrTimeline err)
  | inr photos => inr (fold_left (timeline_step limitPerMonth) photos ∅)
  end.

End service.

(** ** Go standard library: [strconv.Atoi] *)
Module strconv.

(** The value of a run of decimal digits. *)
Fixpoint digits (s : string) (acc : Z) : option Z :=
  match s with
  | EmptyString => Some acc
  | String c s' =>
      let n := Z.of_nat (nat_of_ascii c) in
      if (48 <=? n) && (n <=? 57) then digits s' (10 * acc + (n - 48))
      else None
  end.

(** [Atoi]: an optional sign and at least one digit, within the range
    of a 64-bit [int]; [None] stands for the error. *)
Definition Atoi (s : string) : option Z :=
  let '(negative, body) :=
    match s with
    | String "-" rest => (true, rest)
    | String "+" rest => (false, rest)
    | _ => (false, s)
    end in
  if String.eqb body "" then None
  else match digits body 0 with
       | Some v =>
           let v := if negative then - v else v in
           if (- 2 ^ 63 <=? v) && (v <? 2 ^ 63) then Some v else None
       | None => None
       end.

End strconv.

(** ** internal/api/photo_handler.go: the timeline handler *)
Module api.
Import database.

(** The answer of a handler: its status and, for 200, its data.  The
    data of the timeline is the grouping itself; the handler prints its
    years with [strconv.Itoa] and its months with two digits. *)
Inductive Response : Type :=
  | StatusOK (data : gmap Z (gmap Z (list Photo)))
  | StatusBadRequest
  | StatusInternalServerError (err : error).

(** [h.GetPhotosTimelineHandler(c)]; [limit_per_month] is the query
    parameter of that name, if the request carries it. *)
Definition GetPhotosTimelineHandler (P : Platform) (env : Env)
    (limit_per_month : option string) (db : DB) : Response :=
  let limitPerMonthStr := default "0" limit_per_month in
  match strconv.Atoi limitPerMonthStr with
  | None => StatusBadRequest
  | Some limitPerMonth =>
      match service.GetPhotosByTimeline P env limitPerMonth db with
      | inl err => StatusInternalServerError err
      | inr timeline => StatusOK timeline
      end
  end.

End api.

(** ** A concrete platform and concrete uploads

    Enough of a host to run the program on examples: the digest is the
    hexadecimal text of the content itself (equal exactly for equal
    contents), and the EXIF decoder reads a one-byte tag at the head of
    the content. *)
Module fixture.
Import database.

Definition hex_digit (n : N) : ascii :=
  ascii_of_N (if (n <? 10)%N then 48 + n else 87 + n).

Definition hex_EncodeToString (b : bytes) : string :=
  string_of_list_ascii
    (flat_map (fun x => let n := Byte.to_N x in
                        [hex_digit (n / 16); hex_digit (n mod 16)]) b).

Definition june_2023 : time.Time := time.Date 2023 6 15 10 30 0 0.
Definition march_2024 : time.Time := time.Date 2024 3 9 8 0 0 0.
Definition march_2024_later : time.Time := time.Date 2024 3 20 18 45 0 0.

(** Tag [x00]: no EXIF block; [x01]: a block without a date; [x02]: a
    damaged block; [x03]: a block dated 2023-06-15T10:30:00Z; any
    other content is reported as holding no EXIF data. *)
Definition decode (b : bytes) : error + goexif.Exif :=
  match b with
  | Byte.x00 :: _ => inl io_EOF
  | Byte.x01 :: _ => inr {| goexif.DateTime := None |}
  | Byte.x02 :: _ => inl (errorString "exif: decode failed")
  | Byte.x03 :: _ => inr {| goexif.DateTime := Some june_2023 |}
  | _ => inl (errorString "no exif data")
  end.

Definition host : Platform :=
  {| md5_hex := hex_EncodeToString;
     exif_Decode := decode;
     sql_order := fun _ => None;
     os_TempDir := "/tmp" |}.

Definition svc : service.PhotoService :=
  {| service.FileManager := {| storage.BaseStoragePath := "/srv/photos" |} |}.

Definition no_fault : Fault -> option error := fun _ => None.

Definition at_time (t : time.Time) : Env := {| now := t; fault := no_fault |}.

(** The insertion is made to fail, everything else works. *)
Definition commit_fails (t : time.Time) : Env :=
  {| now := t;
     fault := fun f => match f with
                       | F_DBCreate => Some (errorString "database is locked")
                       | _ => None
                       end |}.

Definition upload (name : string) (content : bytes) : FileHeader :=
  {| fh_Filename := name;
     fh_Size := Z.of_nat (length content);
     fh_ContentType := "image/jpeg";
     fh_Content := content |}.

Definition empty_world : World :=
  {| catalog := {| rows := []; next_id := 1 |}; files := ∅ |}.

Definition plain_A : bytes := [Byte.x00; Byte.x41].
Definition plain_B : bytes := [Byte.x00; Byte.x42].
Definition dated_2023 : bytes := [Byte.x03; Byte.x43].
Definition undated : bytes := [Byte.x01; Byte.x44].
Definition damaged : bytes := [Byte.x02; Byte.x45].

(** A row as the catalog holds it, for the query examples. *)
Definition row (id : Z) (name : string) (upload_date : time.Time)
    (exif_date : option time.Time) : Photo :=
  {| ID := id; Filename := name;
     StoredPath := ("/srv/photos/" ++ name)%string; ThumbnailPath := "";
     UploadDate := upload_date; ExifDate := exif_date;
     Hash := name; FileSize := 1; MimeType := "image/jpeg";
     Width := 0; Height := 0; Description := ""; Tags := "" |}.

Definition table (l : list Photo) : DB :=
  {| rows := l; next_id := Z.of_nat (length l) + 1 |}.

(** The row the first of the example uploads creates. *)
Definition first_a_jpg : Photo :=
  {| ID := 1; Filename := "a.jpg";
     StoredPath := "/srv/photos/2024/03/a.jpg"; ThumbnailPath := "";
     UploadDate := march_2024; ExifDate := None;
     Hash := "0041"; FileSize := 2; MimeType := "image/jpeg";
     Width := 0; Height := 0; Description := ""; Tags := "" |}.

(** The world after [a.jpg] with content [plain_A] was uploaded into
    the empty world in March 2024. *)
Definition after_a_jpg : World :=
  {| catalog := {| rows := [first_a_jpg]; next_id := 2 |};
     files := {[ "/srv/photos/2024/03/a.jpg" := plain_A ]} |}.

(** The row the upload of [d.jpg] with content [dated_2023] creates in
    the empty world in March 2024. *)
Definition dated_row : Photo :=
  {| ID := 1; Filename := "d.jpg";
     StoredPath := "/srv/photos/2023/06/d.jpg"; ThumbnailPath := "";
     UploadDate := march_2024; ExifDate := Some june_2023;
     Hash := "0343"; FileSize := 2; MimeType := "image/jpeg";
     Width := 0; Height := 0; Description := ""; Tags := "" |}.

(** The locals of an upload of [b.jpg] with content [plain_A] that
    has passed the look-up of step 4. *)
Definition staged_b_jpg : service.Staged :=
  {| service.st_uploadDate := march_2024_later;
     service.st_tempFilePath := "/tmp/photo-manager-temp/b.jpg";
     service.st_photoOrganizeDate := march_2024_later;
     service.st_exifDateTime := None;
     service.st_hash := "0041" |}.

Definition by_month (y m : Z) : service.PhotoFilter.t :=
  {| service.PhotoFilter.Year := y; service.PhotoFilter.Month := m;
     service.PhotoFilter.Filename := ""; service.PhotoFilter.Tag := "";
     service.PhotoFilter.Offset := 0; service.PhotoFilter.Limit := 0;
     service.PhotoFilter.OrderBy := "" |}.

Definition by_year (y : Z) : service.PhotoFilter.t := by_month y 0.
Definition no_filter : service.PhotoFilter.t := by_month 0 0.

(** Three rows: one taken in June 2023 and uploaded in March 2024, and
    two without a capture date. *)
Definition album : DB :=
  table [ row 1 "a.jpg" march_2024 (Some june_2023);
          row 2 "b.jpg" march_2024_later None;
          row 3 "c.jpg" june_2023 None ].

End fixture.

(** ** Vocabulary of the properties *)
Section Vocabulary.
Import database.

(** The staging path of an upload. *)
Definition tempFilePath (P : Platform) (file : FileHeader) : string :=
  filepath.Join [filepath.Join [os_TempDir P; "photo-manager-temp"];
                 fh_Filename file].

(** The capture instant the EXIF library finds in a content, if any. *)
Definition capture (P : Platform) (content : bytes) : option time.Time :=
  match exif_Decode P content with
  | inr x => goexif.DateTime x
  | inl _ => None
  end.

(** The decoder found no EXIF block at all. *)
Definition metadata_absent (P : Platform) (content : bytes) : Prop :=
  exists err, exif_Decode P content = inl err
              /\ (err = io_EOF \/ Error err = "no exif data").

(** The decoder found a block, and the block has no usable date. *)
Definition timestamp_missing (P : Platform) (content : bytes) : Prop :=
  exists x, exif_Decode P content = inr x /\ goexif.DateTime x = None.

(** The decoder gave up on the block for any other reason. *)
Definition metadata_damaged (P : Platform) (content : bytes) : Prop :=
  exists err, exif_Decode P content = inl err
              /\ err <> io_EOF /\ Error err <> "no exif data".

(** Extraction does not stop the upload of this content. *)
Definition exif_tolerated (P : Platform) (content : bytes) : Prop :=
  forall err, exif_Decode P content = inl err ->
              err = io_EOF \/ Error err = "no exif data".

(** Nothing is made to fail from outside. *)
Definition fault_free (env : Env) : Prop := forall f, fault env f = None.

(** [<root>/<year>/<month>/<name>] for an organizing instant. *)
Definition placement (fm : storage.FileManager) (organizing : time.Time)
    (name : string) : string :=
  filepath.Join
    [filepath.Join [storage.BaseStoragePath fm;
                    time.Format_2006 organizing;
                    time.Format_01 organizing];
     name].

(** The row [UploadPhoto] hands to the database at step 6. *)
Definition new_row (P : Platform) (s : service.PhotoService) (env : Env)
    (file : FileHeader) : Photo :=
  {| ID := 0;
     Filename := fh_Filename file;
     StoredPath :=
       placement (service.FileManager s)
         (default (now env) (capture P (fh_Content file)))
         (fh_Filename file);
     ThumbnailPath := "";
     UploadDate := now env;
     ExifDate := capture P (fh_Content file);
     Hash := md5_hex P (fh_Content file);
     FileSize := fh_Size file;
     MimeType := fh_ContentType file;
     Width := 0; Height := 0; Description := ""; Tags := "" |}.

(** The organizing instant of a row: capture instant if present, else
    ingestion instant. *)
Definition organizingTimestamp (r : Photo) : time.Time :=
  match ExifDate r with
  | Some d => d
  | None => UploadDate r
  end.

(** Every stored file has a row that points at it. *)
Definition no_orphan_files (w : World) : Prop :=
  forall path, is_Some (files w !! path) ->
               exists r, In r (rows (catalog w)) /\ StoredPath r = path.

Definition within (lo hi t : time.Time) : Prop := lo <= t <= hi.

(** A row matches an interval through either of its two dates. *)
Definition either_date_within (lo hi : time.Time) (r : Photo) : Prop :=
  (exists d, ExifDate r = Some d /\ within lo hi d)
  \/ within lo hi (UploadDate r).

(** A row lies in a calendar year, or in a calendar month, through
    either of its two dates. *)
Definition either_date_in_year (year : Z) (r : Photo) : Prop :=
  (exists d, ExifDate r = Some d /\ time.Year d = year)
  \/ time.Year (UploadDate r) = year.

Definition either_date_in_month (year month : Z) (r : Photo) : Prop :=
  (exists d, ExifDate r = Some d
             /\ time.Year d = year /\ time.Month d = month)
  \/ (time.Year (UploadDate r) = year /\ time.Month (UploadDate r) = month).

(** The order [GetPhotos] asks for by default: capture instants newest
    first, rows without one last, ingestion instants newest first
    among rows that agree on the capture instant. *)
Definition default_order (p q : Photo) : Prop :=
  match ExifDate p, ExifDate q with
  | Some x, Some y => y < x \/ (x = y /\ UploadDate q <= UploadDate p)
  | Some _, None => True
  | None, Some _ => False
  | None, None => UploadDate q <= UploadDate p
  end.

(** The comparison [ORDER BY exif_date DESC, upload_date DESC]
    denotes. *)
Definition default_compare (p q : Photo) : comparison :=
  match sqlite.compare_desc (ExifDate p) (ExifDate q) with
  | Eq =>
      match sqlite.compare_desc (Some (UploadDate p)) (Some (UploadDate q)) with
      | Eq => Eq
      | o => o
      end
  | o => o
  end.

(** The bucket of a year and month in a timeline. *)
Definition bucket (timeline : gmap Z (gmap Z (list Photo))) (year month : Z)
  : option (list Photo) :=
  timeline !! year ≫= fun months : gmap Z (list Photo) => months !! month.

(** The first [limit] rows of a list, all of them when [limit] is 0,
    none of them when it is negative. *)
Definition capped (limit : Z) (l : list Photo) : list Photo :=
  if limit =? 0 then l else take (Z.to_nat limit) l.

(** The rows of a list that are filed under a year and month, as a
    bucket: a month without rows has no bucket. *)
Definition bucket_of (l : list Photo) : option (list Photo) :=
  match l with
  | [] => None
  | _ => Some l
  end.

Definition in_month (year month : Z) (r : Photo) : bool :=
  (time.Year (service.dateToUse r) =? year)
  && (time.Month (service.dateToUse r) =? month).

End Vocabulary.

(** ** internal/api/photo_handler.go: the upload and list handlers *)
Module handlers.
Import database.

(** [maxUploadSize]: 10 MiB. *)
Definition maxUploadSize : Z := 10 * 2 ^ 20.

(** Why a file of a batch was not uploaded: refused for its type, refused
    for its size, or failed in [UploadPhoto]. *)
Inductive FileError : Type :=
  | TypeNotAllowed
  | SizeExceeded
  | UploadFailed (err : error).

(** An element of the [errors] list of the answer. *)
Record ErrorEntry := { ee_filename : string; ee_error : FileError }.

(** An element of the [uploaded] list of the answer; the handler prints
    the key with [%d] and the date in RFC 3339, the empty text standing
    for no date. *)
Record UploadedEntry := {
  ue_id : Z;
  ue_filename : string;
  ue_stored_at : string;
  ue_exif_date : option time.Time
}.

Inductive UploadResponse : Type :=
  | UploadBadRequest
  | UploadMultiStatus (uploaded : list UploadedEntry) (errors : list ErrorEntry)
  | UploadOK (uploaded : list UploadedEntry).

(** The locals of the loop of [UploadPhotoHandler] and the world. *)
Record Batch := {
  uploadedPhotos : list UploadedEntry;
  errors : list ErrorEntry;
  world : World
}.

Definition allowed_type (file : FileHeader) : bool :=
  String.eqb (fh_ContentType file) "image/jpeg"
  || String.eqb (fh_ContentType file) "image/png".

(** One iteration of the loop; [env] is the environment the upload of
    this file runs in.  [UploadPhoto] never returns neither a photo nor
    an error; the last case keeps the locals as they are. *)
Definition upload_one (P : Platform) (s : service.PhotoService) (b : Batch)
    (item : Env * FileHeader) : Batch :=
  let '(env, file) := item in
  if negb (allowed_type file) then
    {| uploadedPhotos := uploadedPhotos b;
       errors := (errors b ++ [{| ee_filename := fh_Filename file;
                                 ee_error := TypeNotAllowed |}])%list;
       world := world b |}
  else if maxUploadSize <? fh_Size file then
    {| uploadedPhotos := uploadedPhotos b;
       errors := (errors b ++ [{| ee_filename := fh_Filename file;
                                 ee_error := SizeExceeded |}])%list;
       world := world b |}
  else
    match service.UploadPhoto P s env file (world b) with
    | ((_, Some err), w) =>
        {| uploadedPhotos := uploadedPhotos b;
           errors := (errors b ++ [{| ee_filename := fh_Filename file;
                                     ee_error := UploadFailed err |}])%list;
           world := w |}
    | ((Some photo, None), w) =>
        {| uploadedPhotos :=
             (uploadedPhotos b ++ [{| ue_id := ID photo;
                                     ue_filename := Filename photo;
                                     ue_stored_at := StoredPath photo;
                                     ue_exif_date := ExifDate photo |}])%list;
           errors := errors b;
           world := w |}
    | ((None, None), w) =>
        {| uploadedPhotos := uploadedPhotos b; errors := errors b; world := w |}
    end.

(** [h.UploadPhotoHandler(c)]: [form] is the list of the parts named
    [photos] of the multipart form, or [None] when the form cannot be
    read. *)
Definition UploadPhotoHandler (P : Platform) (s : service.PhotoService)
    (form : option (list (Env * FileHeader))) (w : World)
  : UploadResponse * World :=
  match form with
  | None => (UploadBadRequest, w)
  | Some files =>
      if (length files =? 0)%nat then (UploadBadRequest, w)
      else
        let b := fold_left (upload_one P s) files
                   {| uploadedPhotos := []; errors := []; world := w |} in
        if (0 <? length (errors b))%nat
        then (UploadMultiStatus (uploadedPhotos b) (errors b), world b)
        else (UploadOK (uploadedPhotos b), world b)
  end.

(** The query string of [GET /photos]: [c.Query] of each name, the empty
    text when the name is absent. *)
Record ListQuery := {
  q_year : string;
  q_month : string;
  q_filename : string;
  q_tag : string;
  q_limit : string;
  q_offset : string;
  q_order_by : string
}.

(** The answer of [GetPhotosHandler]: 400 names the parameter that is
    not a number; the rows of a 200 are printed field by field. *)
Inductive ListResponse : Type :=
  | ListBadRequest (parameter : string)
  | ListInternalServerError (err : error)
  | ListOK (photos : list Photo).

(** A numeric parameter: absent, a number, or not a number. *)
Definition numeric (text : string) : option Z :=
  if String.eqb text "" then Some 0 else strconv.Atoi text.

(** [h.GetPhotosHandler(c)]. *)
Definition GetPhotosHandler (P : Platform) (env : Env) (q : ListQuery)
    (db : DB) : ListResponse :=
  match numeric (q_year q) with
  | None => ListBadRequest "year"
  | Some year =>
  match numeric (q_month q) with
  | None => ListBadRequest "month"
  | Some month =>
  match numeric (q_limit q) with
  | None => ListBadRequest "limit"
  | Some limit =>
  match numeric (q_offset q) with
  | None => ListBadRequest "offset"
  | Some offset =>
      let filter :=
        {| service.PhotoFilter.Year := year;
           service.PhotoFilter.Month := month;
           service.PhotoFilter.Filename := q_filename q;
           service.PhotoFilter.Tag := q_tag q;
           service.PhotoFilter.Offset := offset;
           service.PhotoFilter.Limit := limit;
           service.PhotoFilter.OrderBy := q_order_by q |} in
      match service.GetPhotos P env filter db with
      | inl err => ListInternalServerError err
      | inr photos => ListOK photos
      end
  end end end end.

End handlers.

(** ** Further vocabulary *)
Section MoreVocabulary.
Import database.

(** The unique indexes hold, keys are not reused, and the next key is
    above every key handed out. *)
Definition catalog_ok (db : DB) : Prop :=
  NoDup (map Filename (rows db))
  /\ NoDup (map StoredPath (rows db))
  /\ NoDup (map Hash (rows db))
  /\ NoDup (map ID (rows db))
  /\ Forall (fun r => ID r < next_id db) (rows db).

(** The place [UploadPhoto] stores this upload at, if it gets that
    far. *)
Definition destination (P : Platform) (s : service.PhotoService) (env : Env)
    (file : FileHeader) : string :=
  placement (service.FileManager s)
    (default (now env) (capture P (fh_Content file))) (fh_Filename file).

(** A filter without its page. *)
Definition unpaged (filter : service.PhotoFilter.t) : service.PhotoFilter.t :=
  {| service.PhotoFilter.Year := service.PhotoFilter.Year filter;
     service.PhotoFilter.Month := service.PhotoFilter.Month filter;
     service.PhotoFilter.Filename := service.PhotoFilter.Filename filter;
     service.PhotoFilter.Tag := service.PhotoFilter.Tag filter;
     service.PhotoFilter.Offset := 0;
     service.PhotoFilter.Limit := 0;
     service.PhotoFilter.OrderBy := service.PhotoFilter.OrderBy filter |}.

(** The page of a list: skip [offset] rows when it is positive, then
    keep [limit] rows when it is positive. *)
Definition page (limit offset : Z) (l : list Photo) : list Photo :=
  let l := if 0 <? offset then drop (Z.to_nat offset) l else l in
  if 0 <? limit then take (Z.to_nat limit) l else l.

(** ASCII letters in lower case. *)
Fixpoint lowercase (s : string) : string :=
  match s with
  | EmptyString => EmptyString
  | String c s' => String (sqlite.lower c) (lowercase s')
  end.

(** The files of a batch that the handler lets through to
    [UploadPhoto]. *)
Definition passes_checks (item : Env * FileHeader) : bool :=
  handlers.allowed_type (snd item)
  && negb (handlers.maxUploadSize <? fh_Size (snd item)).

(** The [uploaded] list of an answer of the upload handler. *)
Definition uploaded_of (resp : handlers.UploadResponse)
  : list handlers.UploadedEntry :=
  match resp with
  | handlers.UploadBadRequest => []
  | handlers.UploadMultiStatus uploaded _ => uploaded
  | handlers.UploadOK uploaded => uploaded
  end.

(** The [errors] list of an answer of the upload handler. *)
Definition errors_of (resp : handlers.UploadResponse)
  : list handlers.ErrorEntry :=
  match resp with
  | handlers.UploadMultiStatus _ errors => errors
  | _ => []
  end.

(** What the handler reports of a new row. *)
Definition entry_of (photo : Photo) : handlers.UploadedEntry :=
  {| handlers.ue_id := ID photo;
     handlers.ue_filename := Filename photo;
     handlers.ue_stored_at := StoredPath photo;
     handlers.ue_exif_date := ExifDate photo |}.

(** An upload of eleven megabytes, by its declared size. *)
Definition oversized (name : string) : FileHeader :=
  {| fh_Filename := name;
     fh_Size := 11 * 2 ^ 20;
     fh_ContentType := "image/jpeg";
     fh_Content := fixture.plain_B |}.

(** A query string that carries a month and nothing else. *)
Definition month_only (month : string) : handlers.ListQuery :=
  {| handlers.q_year := ""; handlers.q_month := month;
     handlers.q_filename := ""; handlers.q_tag := "";
     handlers.q_limit := ""; handlers.q_offset := "";
     handlers.q_order_by := "" |}.

(** A filter that sets the filename only. *)
Definition by_name (name : string) : service.PhotoFilter.t :=
  {| service.PhotoFilter.Year := 0; service.PhotoFilter.Month := 0;
     service.PhotoFilter.Filename := name; service.PhotoFilter.Tag := "";
     service.PhotoFilter.Offset := 0; service.PhotoFilter.Limit := 0;
     service.PhotoFilter.OrderBy := "" |}.

End MoreVocabulary.

(** * Properties *)

(** ** The library stand-ins on examples *)

Example Date_2024 : time.Date 2024 1 1 0 0 0 0 = 1704067200 * time.nsPerSecond.
Proof. reflexivity. Qed.

Example Year_Month_2023_06_15 :
  let t := time.Date 2023 6 15 10 30 0 0 in
  (time.Year t, time.Month t, time.Day t) = (2023, 6, 15).
Proof. reflexivity. Qed.

Example AddDate_next_year :
  time.AddDate (time.Date 2024 time.January 1 0 0 0 0) 1 0 0
  = time.Date 2025 1 1 0 0 0 0.
Proof. reflexivity. Qed.

Example AddDate_next_month_after_december :
  time.AddDate (time.Date 2024 12 1 0 0 0 0) 0 1 0 = time.Date 2025 1 1 0 0 0 0.
Proof. reflexivity. Qed.

Example Format_examples :
  let t := time.Date 2023 6 15 10 30 0 0 in
  (time.Format_2006 t, time.Format_01 t) = ("2023", "06").
Proof. reflexivity. Qed.

Example Join_examples :
  filepath.Join ["./data/photos"; "2023"; "06"] = "data/photos/2023/06"
  /\ filepath.Join ["/srv/photos/2023/06"; "a.jpg"] = "/srv/photos/2023/06/a.jpg"
  /\ filepath.Join ["/srv/photos/2023/06"; ".."] = "/srv/photos/2023"
  /\ filepath.Join [""; ""] = "".
Proof. repeat split; reflexivity. Qed.

(** ** Staging and storing *)

Section Staging.
Import database service.
Variable P : Platform.

Lemma os_Open_write_file path content w :
  os_Open path (write_file path content w) = inr content.
Proof. unfold os_Open, write_file; simpl. by rewrite lookup_insert_eq. Qed.

Lemma write_file_twice path c1 c2 w :
  write_file path c2 (write_file path c1 w) = write_file path c2 w.
Proof. unfold write_file, set_files; simpl. by rewrite insert_insert_eq. Qed.

Lemma os_Remove_write_file path c w :
  os_Remove path (write_file path c w) = os_Remove path w.
Proof. unfold os_Remove, write_file, set_files; simpl. by rewrite delete_insert_eq. Qed.

Lemma ExtractExifData_staged env path content w :
  fault env F_ExifOpen = None ->
  exif.ExtractExifData P env path (write_file path content w)
  = match exif_Decode P content with
    | inl err =>
        if error_eqb_EOF err || String.eqb (Error err) "no exif data"
        then inr None else inl (ErrExifDecode err)
    | inr x =>
        match goexif.DateTime x with
        | Some d => inr (Some {| exif.DateTime := Some d |})
        | None => inr None
        end
    end.
Proof.
  intros Hf. unfold exif.ExtractExifData, open_read.
  rewrite Hf, os_Open_write_file.
  destruct (exif_Decode P content) as [err|x]; [done|].
  by destruct (goexif.DateTime x).
Qed.

Lemma tolerated_iff err :
  error_eqb_EOF err || String.eqb (Error err) "no exif data" = true
  <-> err = io_EOF \/ Error err = "no exif data".
Proof.
  rewrite orb_true_iff, String.eqb_eq.
  split; intros [H|H]; auto.
  - left. by destruct err.
  - left. by subst.
Qed.

(** What the first four steps leave behind when they let the upload
    through. *)
Lemma UploadPhoto_check_staged env file w st w1 :
  UploadPhoto_check P env file w = (inr st, w1) ->
  w1 = write_file (tempFilePath P file) (fh_Content file) w
  /\ st = {| st_uploadDate := now env;
             st_tempFilePath := tempFilePath P file;
             st_photoOrganizeDate :=
               default (now env) (capture P (fh_Content file));
             st_exifDateTime := capture P (fh_Content file);
             st_hash := md5_hex P (fh_Content file) |}
  /\ exif_tolerated P (fh_Content file)
  /\ fault env F_ExifOpen = None.
Proof.
  unfold UploadPhoto_check. fold (tempFilePath P file).
  set (tmp := tempFilePath P file).
  destruct (fault env F_MkdirTemp); [done|].
  destruct (fault env F_OpenUpload); [done|].
  destruct (fault env F_CreateTemp); [done|].
  destruct (fault env F_CopyTemp); [done|].
  rewrite write_file_twice.
  unfold exif.ExtractExifData, calculateMD5Hash, open_read.
  rewrite os_Open_write_file.
  destruct (fault env F_ExifOpen) eqn:Hopen; [done|].
  unfold capture, exif_tolerated.
  destruct (exif_Decode P (fh_Content file)) as [err|x] eqn:Hdec.
  - destruct (error_eqb_EOF err || String.eqb (Error err) "no exif data") eqn:Htol;
      [|done].
    apply tolerated_iff in Htol.
    destruct (fault env F_HashOpen); [done|].
    destruct (fault env F_HashCopy); [done|].
    destruct (gorm.First_by_hash _ _ _) as [[]|]; try done.
    intros [= <- <-]. split; [done|split; [done|split; [|done]]].
    by intros ? [= <-].
  - destruct (fault env F_HashOpen); [by destruct (goexif.DateTime x)|].
    destruct (fault env F_HashCopy); [by destruct (goexif.DateTime x)|].
    destruct (goexif.DateTime x); simpl;
      (destruct (gorm.First_by_hash _ _ _) as [[]|]; try done;
       intros [= <- <-]; by repeat split).
Qed.
End Staging.

Section Storing.
Import database service.
Variable P : Platform.
Variable s : PhotoService.

Lemma SavePhoto_placed fm env file d w p w' :
  storage.SavePhoto fm env file d w = (inr p, w') ->
  p = placement fm d (fh_Filename file)
  /\ w' = write_file p (fh_Content file) w.
Proof.
  unfold storage.SavePhoto, placement.
  repeat case_match; try done. by intros [= <- <-].
Qed.

Lemma SavePhoto_unchanged_catalog fm env file d w r w' :
  storage.SavePhoto fm env file d w = (r, w') -> catalog w' = catalog w.
Proof.
  unfold storage.SavePhoto.
  repeat case_match; by intros [= <- <-].
Qed.

(** A successful upload went through every step. *)
Lemma UploadPhoto_success env file w photo w' :
  UploadPhoto P s env file w = ((Some photo, None), w') ->
  exif_tolerated P (fh_Content file)
  /\ fault env F_ExifOpen = None
  /\ gorm.unique_violation (catalog w) (new_row P s env file) = None
  /\ photo = with_ID (next_id (catalog w)) (new_row P s env file)
  /\ catalog w' = {| rows := rows (catalog w) ++ [photo];
                     next_id := next_id (catalog w) + 1 |}.
Proof.
  unfold UploadPhoto.
  destruct (UploadPhoto_check P env file w) as [[r|st] w1] eqn:Hcheck.
  - intros [= -> ->]. exfalso. revert Hcheck. unfold UploadPhoto_check.
    repeat case_match; done.
  - apply UploadPhoto_check_staged in Hcheck as (-> & -> & Htol & Hopen).
    unfold UploadPhoto_store; simpl.
    destruct (storage.SavePhoto _ _ _ _ _) as [[err|p] w2] eqn:Hsave; [done|].
    apply SavePhoto_placed in Hsave as [-> ->].
    unfold gorm.Create; simpl. fold (new_row P s env file).
    destruct (fault env F_DBCreate); [done|].
    destruct (gorm.unique_violation _ _); [done|].
    by intros [= <- <-].
Qed.
End Storing.

(** ** Placement *)
Section Placement.
Import database service.
Variable P : Platform.
Variable s : PhotoService.

Lemma organizingTimestamp_new_row env file id :
  organizingTimestamp (with_ID id (new_row P s env file))
  = default (now env) (capture P (fh_Content file)).
Proof. unfold organizingTimestamp; simpl. by destruct (capture _ _). Qed.

Lemma placement_year_month fm d d' name :
  time.Year d = time.Year d' -> time.Month d = time.Month d' ->
  placement fm d name = placement fm d' name.
Proof.
  intros Hy Hm. unfold placement, time.Format_2006, time.Format_01.
  by rewrite Hy, Hm.
Qed.

Lemma placement_june_2023 fm d name :
  time.Year d = 2023 -> time.Month d = 6 ->
  placement fm d name
  = filepath.Join
      [filepath.Join [storage.BaseStoragePath fm; "2023"; "06"]; name].
Proof.
  intros Hy Hm. unfold placement, time.Format_2006, time.Format_01.
  by rewrite Hy, Hm.
Qed.

(** C1, amended: the stored location of an ingested photo is
    [<root>/<year>/<month>/<name>] where [<name>] is the original
    filename as supplied, without the content hash; the placement step
    of any upload that carries the same original filename and is
    organized in the same year and month writes its content to that
    same location. *)
Theorem C1_stored_name_is_original_filename
    env file w photo w' env2 file2 d2 w2 p2 w2' :
  UploadPhoto P s env file w = ((Some photo, None), w') ->
  storage.SavePhoto (FileManager s) env2 file2 d2 w2 = (inr p2, w2') ->
  fh_Filename file2 = fh_Filename file ->
  time.Year d2 = time.Year (organizingTimestamp photo) ->
  time.Month d2 = time.Month (organizingTimestamp photo) ->
  StoredPath photo
  = filepath.Join
      [filepath.Join [storage.BaseStoragePath (FileManager s);
                      time.Format_2006 (organizingTimestamp photo);
                      time.Format_01 (organizingTimestamp photo)];
       fh_Filename file]
  /\ p2 = StoredPath photo
  /\ files w2' !! StoredPath photo = Some (fh_Content file2).
Proof.
  intros Hup Hsave Hname Hy Hm.
  apply UploadPhoto_success in Hup as (_ & _ & _ & -> & _).
  apply SavePhoto_placed in Hsave as [-> ->].
  rewrite organizingTimestamp_new_row in *.
  rewrite Hname, (placement_year_month _ _ _ _ Hy Hm).
  split; [done|split; [done|]].
  unfold write_file; simpl. apply lookup_insert_eq.
Qed.

(** C9: the instant used for placement is the extracted capture
    instant when extraction yields one and the instant the upload
    started otherwise; a photo organized in June 2023 lies under
    [2023/06]. *)
Theorem C9_placement_follows_organizing_timestamp env file w photo w' :
  UploadPhoto P s env file w = ((Some photo, None), w') ->
  exists extracted organizing,
    exif.ExtractExifData P env (tempFilePath P file)
      (write_file (tempFilePath P file) (fh_Content file) w)
    = inr extracted
    /\ organizing = match extracted with
                    | Some {| exif.DateTime := Some d |} => d
                    | _ => now env
                    end
    /\ ExifDate photo = extracted ≫= exif.DateTime
    /\ UploadDate photo = now env
    /\ organizingTimestamp photo = organizing
    /\ StoredPath photo
       = filepath.Join
           [filepath.Join [storage.BaseStoragePath (FileManager s);
                           time.Format_2006 organizing;
                           time.Format_01 organizing];
            fh_Filename file]
    /\ (time.Year organizing = 2023 -> time.Month organizing = 6 ->
        StoredPath photo
        = filepath.Join
            [filepath.Join [storage.BaseStoragePath (FileManager s);
                            "2023"; "06"];
             fh_Filename file]).
Proof.
  intros Hup.
  apply UploadPhoto_success in Hup as (Htol & Hopen & _ & -> & _).
  rewrite (ExtractExifData_staged P _ _ _ _ Hopen).
  unfold organizingTimestamp, placement, capture; simpl.
  unfold capture, time.Format_2006, time.Format_01.
  destruct (exif_Decode P (fh_Content file)) as [err|x] eqn:Hdec.
  - apply Htol, tolerated_iff in Hdec as ->.
    exists None, (now env); simpl.
    repeat (split; [reflexivity|]). apply placement_june_2023.
  - destruct (goexif.DateTime x) as [d|].
    + exists (Some {| exif.DateTime := Some d |}), d; simpl.
      repeat (split; [reflexivity|]). apply placement_june_2023.
    + exists None, (now env); simpl.
      repeat (split; [reflexivity|]). apply placement_june_2023.
Qed.
End Placement.

(** ** Placement on the example uploads *)
Section PlacementExamples.
Import database service fixture.

Lemma first_upload_runs :
  UploadPhoto host svc (at_time march_2024) (upload "a.jpg" plain_A)
    empty_world
  = ((Some first_a_jpg, None), after_a_jpg).
Proof. vm_compute. reflexivity. Qed.

(** C1 fails as stated: a second content uploaded under the name of
    the first in the same month is placed at the location of the
    first, replacing its bytes; the insertion is then refused and the
    file at that location is removed. *)
Lemma C1_same_name_same_location :
  let second := upload "a.jpg" plain_B in
  let location := "/srv/photos/2024/03/a.jpg" in
  plain_A <> plain_B
  /\ md5_hex host plain_A <> md5_hex host plain_B
  /\ UploadPhoto host svc (at_time march_2024) (upload "a.jpg" plain_A)
       empty_world
     = ((Some first_a_jpg, None), after_a_jpg)
  /\ StoredPath first_a_jpg = location
  /\ files after_a_jpg !! location = Some plain_A
  /\ (exists w2,
        storage.SavePhoto (FileManager svc) (at_time march_2024_later)
          second march_2024_later after_a_jpg
        = (inr location, w2)
        /\ files w2 !! location = Some plain_B)
  /\ (exists w3,
        UploadPhoto host svc (at_time march_2024_later) second after_a_jpg
        = ((None,
            Some (ErrSaveMetadata
                    (sqlite_ErrConstraintUnique "photos.filename"))), w3)
        /\ rows (catalog w3) = [first_a_jpg]
        /\ files w3 !! location = None).
Proof.
  repeat split; try discriminate; try (vm_compute; reflexivity).
  - eexists. split; vm_compute; reflexivity.
  - eexists. split; [|split]; vm_compute; reflexivity.
Qed.

Lemma C1_stored_name_is_original_filename_witness :
  StoredPath first_a_jpg = "/srv/photos/2024/03/a.jpg"
  /\ "/srv/photos/2024/03/a.jpg" = StoredPath first_a_jpg
  /\ files (write_file "/srv/photos/2024/03/a.jpg" plain_B after_a_jpg)
       !! StoredPath first_a_jpg
     = Some plain_B.
Proof.
  apply (C1_stored_name_is_original_filename host svc
           (at_time march_2024) (upload "a.jpg" plain_A) empty_world
           first_a_jpg after_a_jpg
           (at_time march_2024_later) (upload "a.jpg" plain_B)
           march_2024_later after_a_jpg).
  - vm_compute. reflexivity.
  - vm_compute. reflexivity.
  - reflexivity.
  - vm_compute. reflexivity.
  - vm_compute. reflexivity.
Defined.

Lemma C9_placement_follows_organizing_timestamp_witness :
  exists extracted organizing,
    exif.ExtractExifData host (at_time march_2024)
      (tempFilePath host (upload "d.jpg" dated_2023))
      (write_file (tempFilePath host (upload "d.jpg" dated_2023))
         dated_2023 empty_world)
    = inr extracted
    /\ organizing = match extracted with
                    | Some {| exif.DateTime := Some d |} => d
                    | _ => march_2024
                    end
    /\ ExifDate dated_row = extracted ≫= exif.DateTime
    /\ UploadDate dated_row = march_2024
    /\ organizingTimestamp dated_row = organizing
    /\ StoredPath dated_row
       = filepath.Join
           [filepath.Join ["/srv/photos"; time.Format_2006 organizing;
                           time.Format_01 organizing]; "d.jpg"]
    /\ (time.Year organizing = 2023 -> time.Month organizing = 6 ->
        StoredPath dated_row
        = filepath.Join [filepath.Join ["/srv/photos"; "2023"; "06"]; "d.jpg"]).
Proof.
  apply (C9_placement_follows_organizing_timestamp host svc
           (at_time march_2024) (upload "d.jpg" dated_2023) empty_world
           dated_row
           (snd (UploadPhoto host svc (at_time march_2024)
                   (upload "d.jpg" dated_2023) empty_world))).
  vm_compute. reflexivity.
Defined.

Example dated_upload_lies_under_2023_06 :
  fst (UploadPhoto host svc (at_time march_2024)
         (upload "d.jpg" dated_2023) empty_world)
  = (Some dated_row, None)
  /\ StoredPath dated_row = "/srv/photos/2023/06/d.jpg".
Proof. split; vm_compute; reflexivity. Qed.

Example undated_upload_lies_under_ingestion_month :
  (StoredPath <$> fst (fst (UploadPhoto host svc (at_time march_2024)
                              (upload "u.jpg" undated) empty_world)))
  = Some "/srv/photos/2024/03/u.jpg".
Proof. vm_compute. reflexivity. Qed.
End PlacementExamples.

(** ** Compensation after a failed insertion *)
Section Compensation.
Import database service.
Variable P : Platform.
Variable s : PhotoService.

Lemma UploadPhoto_check_early env file w r w1 cause :
  UploadPhoto_check P env file w = (inl r, w1) ->
  r <> (None, Some (ErrSaveMetadata cause)).
Proof.
  unfold UploadPhoto_check. repeat case_match; by intros [= <- <-].
Qed.

Lemma files_after_removals tmp p content w path :
  is_Some (files (os_Remove tmp (os_Remove p
             (write_file p content (write_file tmp content w)))) !! path) ->
  path <> tmp /\ path <> p /\ is_Some (files w !! path).
Proof.
  unfold os_Remove, write_file; simpl.
  destruct (decide (path = tmp)) as [->|Htmp].
  { rewrite lookup_delete_eq. by intros [? [=]]. }
  rewrite lookup_delete_ne by done.
  destruct (decide (path = p)) as [->|Hp].
  { rewrite lookup_delete_eq. by intros [? [=]]. }
  rewrite lookup_delete_ne, !lookup_insert_ne by done. done.
Qed.

End Compensation.

Section CompensationExamples.
Import database service fixture.


Example after_a_jpg_has_no_orphan_file : no_orphan_files after_a_jpg.
Proof.
  intros path [content Hpath]. exists first_a_jpg. split; [by left|].
  unfold after_a_jpg in Hpath; simpl in Hpath.
  apply lookup_singleton_Some in Hpath as [<- _]. reflexivity.
Qed.
End CompensationExamples.

(** ** Duplicates *)
Section Duplicates.
Import database service.
Variable P : Platform.
Variable s : PhotoService.

Lemma find_hash_unique (l : list Photo) e :
  NoDup (map Hash l) -> In e l ->
  List.find (fun r => String.eqb (Hash r) (Hash e)) l = Some e.
Proof.
  induction l as [|r l IH]; simpl; [done|].
  intros Hnd [->|Hin].
  - by rewrite String.eqb_refl.
  - apply NoDup_cons in Hnd as [Hr Hnd].
    destruct (String.eqb (Hash r) (Hash e)) eqn:Heq; [|by apply IH].
    apply String.eqb_eq in Heq. exfalso. apply Hr. rewrite Heq.
    apply list_elem_of_In, in_map, Hin.
Qed.

Lemma unique_violation_hash db p e :
  In e (rows db) -> Hash e = Hash p ->
  exists column, gorm.unique_violation db p = Some column.
Proof.
  intros Hin Hh. unfold gorm.unique_violation.
  destruct (existsb _ _); [by eexists|].
  destruct (existsb _ _); [by eexists|].
  destruct (existsb _ _) eqn:Hex; [by eexists|].
  exfalso. rewrite <- not_true_iff_false in Hex. apply Hex.
  apply existsb_exists. exists e. split; [done|]. by apply String.eqb_eq.
Qed.

(** C2, amended: a row with the hash of the uploaded content exists.
    If the look-up of step 4 sees it, [UploadPhoto] returns that row
    together with the duplicate error; if only the insertion of step 7
    meets it, the unique index refuses the row and the upload returns
    no row and the error of a failed save.  The catalog is unchanged
    either way. *)
Theorem C2_duplicate_outcomes env file w e st :
  fault_free env ->
  exif_tolerated P (fh_Content file) ->
  NoDup (map Hash (rows (catalog w))) ->
  In e (rows (catalog w)) ->
  Hash e = md5_hex P (fh_Content file) ->
  st_hash st = md5_hex P (fh_Content file) ->
  UploadPhoto P s env file w
  = ((Some e, Some (ErrDuplicate (Hash e) (StoredPath e))),
     os_Remove (tempFilePath P file) w)
  /\ exists column w',
       UploadPhoto_store s env file st w
       = ((None, Some (ErrSaveMetadata (sqlite_ErrConstraintUnique column))),
          w')
       /\ catalog w' = catalog w.
Proof.
  intros Hff Htol Hnd Hin Hhash Hst. split.
  - unfold UploadPhoto, UploadPhoto_check. fold (tempFilePath P file).
    rewrite !Hff, write_file_twice.
    rewrite (ExtractExifData_staged P _ _ _ _ (Hff _)).
    unfold calculateMD5Hash, open_read. rewrite !Hff, os_Open_write_file.
    unfold gorm.First_by_hash. rewrite Hff; simpl. rewrite <- Hhash.
    rewrite (find_hash_unique _ _ Hnd Hin), os_Remove_write_file.
    destruct (exif_Decode P (fh_Content file)) as [err|x] eqn:Hdec.
    + apply Htol, tolerated_iff in Hdec as ->. reflexivity.
    + by destruct (goexif.DateTime x).
  - unfold UploadPhoto_store, storage.SavePhoto, gorm.Create.
    rewrite !Hff; simpl.
    edestruct (unique_violation_hash (catalog w)) as [column ->];
      [exact Hin| |by eexists _, _].
    simpl. congruence.
Qed.
End Duplicates.

Section DuplicateExamples.
Import database service fixture.

(** C2 fails as stated: two uploads of the same bytes under two names
    overlap, both pass the look-up of step 4, the first inserts its
    row, and the second comes back with no row and the error of a
    failed save instead of the row that exists. *)
Lemma C2_late_duplicate_is_a_failed_save :
  fh_Content (upload "a.jpg" plain_A) = fh_Content (upload "b.jpg" plain_A)
  /\ exists w',
       UploadPhoto_overlapped host svc
         (at_time march_2024) (at_time march_2024_later)
         (upload "a.jpg" plain_A) (upload "b.jpg" plain_A) empty_world
       = ((Some first_a_jpg, None),
          (None,
           Some (ErrSaveMetadata (sqlite_ErrConstraintUnique "photos.hash"))),
          w')
       /\ rows (catalog w') = [first_a_jpg].
Proof.
  split; [reflexivity|]. eexists. split; vm_compute; reflexivity.
Qed.

Lemma C2_duplicate_outcomes_witness :
  UploadPhoto host svc (at_time march_2024_later) (upload "b.jpg" plain_A)
    after_a_jpg
  = ((Some first_a_jpg,
      Some (ErrDuplicate (Hash first_a_jpg) (StoredPath first_a_jpg))),
     os_Remove (tempFilePath host (upload "b.jpg" plain_A)) after_a_jpg)
  /\ exists column w',
       UploadPhoto_store svc (at_time march_2024_later)
         (upload "b.jpg" plain_A) staged_b_jpg after_a_jpg
       = ((None, Some (ErrSaveMetadata (sqlite_ErrConstraintUnique column))),
          w')
       /\ catalog w' = catalog after_a_jpg.
Proof.
  apply (C2_duplicate_outcomes host svc (at_time march_2024_later)
           (upload "b.jpg" plain_A) after_a_jpg first_a_jpg staged_b_jpg).
  - intros f. reflexivity.
  - intros err Herr. vm_compute in Herr. injection Herr as <-. by left.
  - simpl. apply NoDup_cons. split; [apply not_elem_of_nil|apply NoDup_nil_2].
  - by left.
  - vm_compute. reflexivity.
  - vm_compute. reflexivity.
Defined.
End DuplicateExamples.

(** ** Metadata extraction *)
Section Extraction.
Import database service.
Variable P : Platform.
Variable s : PhotoService.

Lemma find_existsb_false {A} (f : A -> bool) (l : list A) :
  existsb f l = false -> List.find f l = None.
Proof.
  induction l as [|x l IH]; simpl; [done|].
  destruct (f x); [done|]. exact IH.
Qed.

Lemma unique_violation_no_hash db p :
  gorm.unique_violation db p = None ->
  List.find (fun r => String.eqb (Hash r) (Hash p)) (rows db) = None.
Proof.
  unfold gorm.unique_violation. intros Huniq.
  apply find_existsb_false.
  destruct (existsb (fun r => String.eqb (Hash r) (Hash p)) (rows db));
    [|done].
  by repeat case_match.
Qed.

(** An upload that nothing stops creates its row. *)
Lemma UploadPhoto_succeeds env file w :
  fault_free env ->
  exif_tolerated P (fh_Content file) ->
  gorm.unique_violation (catalog w) (new_row P s env file) = None ->
  exists w',
    UploadPhoto P s env file w
    = ((Some (with_ID (next_id (catalog w)) (new_row P s env file)), None),
       w')
    /\ rows (catalog w')
       = (rows (catalog w)
          ++ [with_ID (next_id (catalog w)) (new_row P s env file)])%list.
Proof.
  intros Hff Htol Huniq.
  unfold UploadPhoto, UploadPhoto_check. fold (tempFilePath P file).
  rewrite !Hff, write_file_twice.
  rewrite (ExtractExifData_staged P _ _ _ _ (Hff _)).
  unfold calculateMD5Hash, open_read. rewrite !Hff, os_Open_write_file.
  unfold gorm.First_by_hash. rewrite Hff.
  pose proof (unique_violation_no_hash _ _ Huniq) as Hfind.
  cbn [Hash new_row] in Hfind. cbn [catalog write_file set_files].
  rewrite Hfind.
  assert (Hstore : forall d,
    d = default (now env) (capture P (fh_Content file)) ->
    exists w',
      UploadPhoto_store s env file
        {| st_uploadDate := now env;
           st_tempFilePath := tempFilePath P file;
           st_photoOrganizeDate := d;
           st_exifDateTime := capture P (fh_Content file);
           st_hash := md5_hex P (fh_Content file) |}
        (write_file (tempFilePath P file) (fh_Content file) w)
      = ((Some (with_ID (next_id (catalog w)) (new_row P s env file)), None),
         w')
      /\ rows (catalog w')
         = (rows (catalog w)
            ++ [with_ID (next_id (catalog w)) (new_row P s env file)])%list).
  { intros d ->. unfold UploadPhoto_store, storage.SavePhoto, gorm.Create.
    rewrite !Hff; simpl. fold (placement (FileManager s)
      (default (now env) (capture P (fh_Content file))) (fh_Filename file)).
    fold (new_row P s env file). rewrite Huniq. by eexists. }
  unfold capture in *.
  destruct (exif_Decode P (fh_Content file)) as [err|x] eqn:Hdec.
  - apply Htol, tolerated_iff in Hdec as ->. by apply Hstore.
  - destruct (goexif.DateTime x); by apply Hstore.
Qed.

(** C6, amended: a content whose EXIF block is absent, or present
    without a usable date, does not stop the upload: extraction yields
    no date and the photo is filed under the instant the upload
    started.  A block the decoder rejects for any other reason makes
    extraction fail, and the upload ends with that error. *)
Theorem C6_missing_metadata_is_not_fatal env file w :
  fault_free env ->
  (metadata_absent P (fh_Content file)
   \/ timestamp_missing P (fh_Content file) ->
   exif.ExtractExifData P env (tempFilePath P file)
     (write_file (tempFilePath P file) (fh_Content file) w)
   = inr None
   /\ (gorm.unique_violation (catalog w) (new_row P s env file) = None ->
       exists photo w',
         UploadPhoto P s env file w = ((Some photo, None), w')
         /\ ExifDate photo = None
         /\ StoredPath photo
            = placement (FileManager s) (now env) (fh_Filename file)))
  /\ (forall err,
        exif_Decode P (fh_Content file) = inl err ->
        err <> io_EOF -> Error err <> "no exif data" ->
        exif.ExtractExifData P env (tempFilePath P file)
          (write_file (tempFilePath P file) (fh_Content file) w)
        = inl (ErrExifDecode err)
        /\ UploadPhoto P s env file w
           = ((None, Some (ErrExtractExif (ErrExifDecode err))),
              os_Remove (tempFilePath P file) w)).
Proof.
  intros Hff. split.
  - intros Hmeta.
    assert (Hcap : capture P (fh_Content file) = None).
    { unfold capture.
      destruct Hmeta as [(err & -> & _)|(x & -> & Hx)]; done. }
    assert (Htol : exif_tolerated P (fh_Content file)).
    { intros err Herr.
      destruct Hmeta as [(err' & Herr' & Hor)|(x & Hx & _)]; congruence. }
    split.
    + rewrite (ExtractExifData_staged P _ _ _ _ (Hff _)).
      unfold capture in Hcap.
      destruct (exif_Decode P (fh_Content file)) as [err|x] eqn:Hdec.
      * by apply Htol, tolerated_iff in Hdec as ->.
      * by rewrite Hcap.
    + intros Huniq.
      destruct (UploadPhoto_succeeds env file w Hff Htol Huniq) as (w' & Hup & _).
      eexists _, w'. split; [exact Hup|]. simpl. by rewrite Hcap.
  - intros err Hdec Heof Hmsg.
    assert (Hfatal : error_eqb_EOF err || String.eqb (Error err) "no exif data"
                     = false).
    { apply not_true_iff_false. rewrite tolerated_iff. tauto. }
    split.
    + by rewrite (ExtractExifData_staged P _ _ _ _ (Hff _)), Hdec, Hfatal.
    + unfold UploadPhoto, UploadPhoto_check. fold (tempFilePath P file).
      rewrite !Hff, write_file_twice.
      rewrite (ExtractExifData_staged P _ _ _ _ (Hff _)), Hdec, Hfatal.
      by rewrite os_Remove_write_file.
Qed.
End Extraction.

Section ExtractionExamples.
Import database service fixture.

(** C6 fails as stated: a damaged EXIF block ends the upload with an
    error; no row is created and no file is stored. *)
Lemma C6_damaged_metadata_fails_the_upload :
  exif_Decode host damaged = inl (errorString "exif: decode failed")
  /\ UploadPhoto host svc (at_time march_2024) (upload "x.jpg" damaged)
       empty_world
     = ((None,
         Some (ErrExtractExif
                 (ErrExifDecode (errorString "exif: decode failed")))),
        empty_world).
Proof. split; vm_compute; reflexivity. Qed.

Lemma C6_missing_metadata_is_not_fatal_witness :
  exif.ExtractExifData host (at_time march_2024)
    (tempFilePath host (upload "u.jpg" undated))
    (write_file (tempFilePath host (upload "u.jpg" undated)) undated
       empty_world)
  = inr None
  /\ (exists photo w',
        UploadPhoto host svc (at_time march_2024) (upload "u.jpg" undated)
          empty_world = ((Some photo, None), w')
        /\ ExifDate photo = None
        /\ StoredPath photo
           = placement (FileManager svc) march_2024 "u.jpg").
Proof.
  destruct (C6_missing_metadata_is_not_fatal host svc (at_time march_2024)
              (upload "u.jpg" undated) empty_world) as [[Hex Hup] _].
  - intros f. reflexivity.
  - right. eexists. split; [vm_compute; reflexivity|reflexivity].
  - split; [exact Hex|]. apply Hup. vm_compute. reflexivity.
Defined.
End ExtractionExamples.

(** ** The unique indexes of the table *)
Section UniqueIndexes.
Import database service.
Variable P : Platform.
Variable s : PhotoService.

(** Either the upload reports an error and leaves the catalog alone,
    or it reports a new row and no error. *)
Lemma UploadPhoto_outcome env file w res w' :
  UploadPhoto P s env file w = (res, w') ->
  (snd res <> None /\ catalog w' = catalog w)
  \/ (exists photo, res = (Some photo, None)).
Proof.
  unfold UploadPhoto.
  destruct (UploadPhoto_check P env file w) as [[r|st] w1] eqn:Hcheck.
  - intros [= <- <-]. left. revert Hcheck. unfold UploadPhoto_check.
    repeat case_match; by intros [= <- <-].
  - apply UploadPhoto_check_staged in Hcheck as (-> & _).
    unfold UploadPhoto_store.
    destruct (storage.SavePhoto _ _ _ _ _) as [[err|p] w2] eqn:Hsave.
    + apply SavePhoto_unchanged_catalog in Hsave.
      intros [= <- <-]. by left.
    + apply SavePhoto_unchanged_catalog in Hsave.
      destruct (gorm.Create _ _ _) as [err|[db photo]]; intros [= <- <-].
      * by left.
      * right. by eexists.
Qed.

Lemma unique_violation_filename db p r :
  In r (rows db) -> Filename r = Filename p ->
  gorm.unique_violation db p = Some "photos.filename".
Proof.
  intros Hin Hname. unfold gorm.unique_violation.
  destruct (existsb _ _) eqn:Hex; [done|].
  exfalso. rewrite <- not_true_iff_false in Hex. apply Hex.
  apply existsb_exists. exists r. split; [done|]. by apply String.eqb_eq.
Qed.

Lemma unique_violation_fresh_filename db p :
  gorm.unique_violation db p = None ->
  ~ In (Filename p) (map Filename (rows db)).
Proof.
  intros Huniq (r & Hname & Hin)%in_map_iff.
  by rewrite (unique_violation_filename db p r Hin Hname) in Huniq.
Qed.

(** C7, amended: the original filename is unique across the rows of
    the catalog, like the hash and the stored path.  An upload under a
    name some row already carries ends with an error and leaves the
    catalog as it was, and no upload ever makes two rows share a
    name. *)
Theorem C7_original_filename_is_unique env file w res w' :
  UploadPhoto P s env file w = (res, w') ->
  ((exists r, In r (rows (catalog w)) /\ Filename r = fh_Filename file) ->
   snd res <> None /\ catalog w' = catalog w)
  /\ (NoDup (map Filename (rows (catalog w))) ->
      NoDup (map Filename (rows (catalog w')))).
Proof.
  intros Hup. split.
  - intros (r & Hin & Hname).
    destruct (UploadPhoto_outcome _ _ _ _ _ Hup) as [?|[photo ->]]; [done|].
    apply UploadPhoto_success in Hup as (_ & _ & Huniq & _).
    by rewrite (unique_violation_filename _ (new_row P s env file) r Hin Hname)
      in Huniq.
  - intros Hnd.
    destruct (UploadPhoto_outcome _ _ _ _ _ Hup) as [[_ ->]|[photo ->]]; [done|].
    apply UploadPhoto_success in Hup as (_ & _ & Huniq & -> & ->); simpl.
    rewrite map_app; simpl.
    apply NoDup_app. split; [done|]. split; [|apply NoDup_singleton].
    intros name Hname ->%list_elem_of_singleton.
    apply (unique_violation_fresh_filename _ _ Huniq).
    by apply list_elem_of_In.
Qed.
End UniqueIndexes.

Section UniqueIndexExamples.
Import database service fixture.

(** C7 fails as stated: a second upload under the name [a.jpg], with
    another content, another hash and (being dated June 2023) another
    stored path, is refused by the unique index on the filename. *)
Lemma C7_same_name_second_upload_is_refused :
  plain_A <> dated_2023
  /\ md5_hex host plain_A <> md5_hex host dated_2023
  /\ exists w',
       UploadPhoto host svc (at_time march_2024_later)
         (upload "a.jpg" dated_2023) after_a_jpg
       = ((None,
           Some (ErrSaveMetadata
                   (sqlite_ErrConstraintUnique "photos.filename"))), w')
       /\ rows (catalog w') = [first_a_jpg].
Proof.
  split; [discriminate|]. split; [vm_compute; discriminate|].
  eexists. split; vm_compute; reflexivity.
Qed.

Lemma C7_original_filename_is_unique_witness :
  (snd (fst (UploadPhoto host svc (at_time march_2024_later)
               (upload "a.jpg" dated_2023) after_a_jpg)) <> None
   /\ catalog (snd (UploadPhoto host svc (at_time march_2024_later)
                      (upload "a.jpg" dated_2023) after_a_jpg))
      = catalog after_a_jpg)
  /\ NoDup (map Filename
              (rows (catalog
                 (snd (UploadPhoto host svc (at_time march_2024_later)
                         (upload "a.jpg" dated_2023) after_a_jpg))))).
Proof.
  destruct (C7_original_filename_is_unique host svc
              (at_time march_2024_later) (upload "a.jpg" dated_2023)
              after_a_jpg
              (fst (UploadPhoto host svc (at_time march_2024_later)
                      (upload "a.jpg" dated_2023) after_a_jpg))
              (snd (UploadPhoto host svc (at_time march_2024_later)
                      (upload "a.jpg" dated_2023) after_a_jpg)))
    as [Hrefused Hkeeps].
  - apply surjective_pairing.
  - split.
    + apply Hrefused. exists first_a_jpg. split; [by left|reflexivity].
    + apply Hkeeps. simpl. apply NoDup_singleton.
Defined.
End UniqueIndexExamples.

(** ** The calendar

    The two conversions between day numbers and civil dates repeat
    every 400 years (146097 days, 4800 months); what one such era
    satisfies is checked by running them, and carried to all others. *)
Section Calendar.

Lemma all_from_spec fuel i f :
  all_from fuel i f = true ->
  forall j, i <= j < i + Z.of_nat fuel -> f j = true.
Proof.
  revert i. induction fuel as [|fuel IH]; intros i; simpl; [lia|].
  intros [Hi Hrest]%andb_true_iff j Hj.
  destruct (decide (j = i)) as [->|Hne]; [done|].
  apply (IH (i + 1)); [done|lia].
Qed.

Lemma months_of_one_era :
  all_from (Z.to_nat 4800) 0 month_check = true.
Proof. vm_compute. reflexivity. Qed.

Lemma days_of_one_era :
  all_from (Z.to_nat 146097) (-719468) day_check = true.
Proof. vm_compute. reflexivity. Qed.

Lemma days_from_civil_shift y m d j :
  time.days_from_civil (y + 400 * j) m d
  = time.days_from_civil y m d + 146097 * j.
Proof.
  unfold time.days_from_civil.
  assert (Hera : forall a, (a + 400 * j) / 400 = a / 400 + j).
  { intros a. rewrite (Z.mul_comm 400 j). apply Z.div_add. lia. }
  destruct (m <=? 2).
  - replace (y + 400 * j - 1) with (y - 1 + 400 * j) by lia.
    rewrite Hera.
    replace (y - 1 + 400 * j - ((y - 1) / 400 + j) * 400)
      with (y - 1 - (y - 1) / 400 * 400) by lia.
    lia.
  - rewrite Hera.
    replace (y + 400 * j - (y / 400 + j) * 400)
      with (y - y / 400 * 400) by lia.
    lia.
Qed.

Lemma civil_from_days_shift z j :
  time.civil_from_days (z + 146097 * j)
  = let '(y, m, d) := time.civil_from_days z in (y + 400 * j, m, d).
Proof.
  unfold time.civil_from_days.
  replace (z + 146097 * j + 719468) with (z + 719468 + j * 146097) by lia.
  rewrite Z.div_add by lia.
  replace (z + 719468 + j * 146097 - ((z + 719468) / 146097 + j) * 146097)
    with (z + 719468 - (z + 719468) / 146097 * 146097) by lia.
  cbv zeta.
  set (doe := z + 719468 - (z + 719468) / 146097 * 146097).
  set (yoe := (doe - doe / 1460 + doe / 36524 - doe / 146096) / 365).
  set (doy := doe - (365 * yoe + yoe / 4 - yoe / 100)).
  set (mp := (5 * doy + 2) / 153).
  destruct ((if mp <? 10 then mp + 3 else mp - 9) <=? 2); f_equal; f_equal; lia.
Qed.

Lemma month_day_shift k j :
  month_day (k + 4800 * j) = month_day k + 146097 * j.
Proof.
  unfold month_day.
  replace (k + 4800 * j) with (k + (400 * j) * 12) by lia.
  rewrite Z.div_add, Z.mod_add by lia.
  apply days_from_civil_shift.
Qed.

(** Every month starts before the next one. *)
Lemma month_day_step k : month_day k < month_day (k + 1).
Proof.
  pose (j := k / 4800). pose (k0 := k mod 4800).
  assert (Hk : k = k0 + 4800 * j) by (unfold j, k0; Z.div_mod_to_equations; lia).
  assert (Hk0 : 0 <= k0 < 0 + Z.of_nat (Z.to_nat 4800))
    by (unfold k0; Z.div_mod_to_equations; lia).
  pose proof (all_from_spec _ _ _ months_of_one_era k0 Hk0) as Hc.
  unfold month_check in Hc. apply Z.ltb_lt in Hc.
  rewrite Hk. replace (k0 + 4800 * j + 1) with (k0 + 1 + 4800 * j) by lia.
  rewrite !month_day_shift. lia.
Qed.

Lemma month_day_mono k1 k2 : k1 <= k2 -> month_day k1 <= month_day k2.
Proof.
  intros Hle. replace k2 with (k1 + Z.of_nat (Z.to_nat (k2 - k1))) by lia.
  induction (Z.to_nat (k2 - k1)) as [|n IH]; [by rewrite Z.add_0_r|].
  pose proof (month_day_step (k1 + Z.of_nat n)).
  replace (k1 + Z.of_nat (S n)) with (k1 + Z.of_nat n + 1) by lia. lia.
Qed.

(** What the civil date of a day number satisfies. *)
Lemma civil_from_days_facts z :
  let '(y, m, d) := time.civil_from_days z in
  1 <= m <= 12 /\ 1 <= d
  /\ time.days_from_civil y m d = z
  /\ month_day (12 * y + (m - 1)) <= z < month_day (12 * y + m).
Proof.
  pose (j := (z + 719468) / 146097). pose (z0 := z - 146097 * j).
  assert (Hz : z = z0 + 146097 * j) by (unfold z0; lia).
  assert (Hz0 : -719468 <= z0 < -719468 + Z.of_nat (Z.to_nat 146097))
    by (unfold z0, j; Z.div_mod_to_equations; lia).
  pose proof (all_from_spec _ _ _ days_of_one_era z0 Hz0) as Hc.
  unfold day_check in Hc.
  rewrite Hz, civil_from_days_shift.
  destruct (time.civil_from_days z0) as [[y m] d].
  rewrite !andb_true_iff, !Z.leb_le, Z.ltb_lt, Z.eqb_eq in Hc.
  destruct Hc as (((((Hm1 & Hm12) & Hd) & Hrt) & Hlo) & Hhi).
  rewrite days_from_civil_shift.
  replace (12 * (y + 400 * j) + (m - 1)) with (12 * y + (m - 1) + 4800 * j) by lia.
  replace (12 * (y + 400 * j) + m) with (12 * y + m + 4800 * j) by lia.
  rewrite !month_day_shift. lia.
Qed.

(** The days of month [k] are the days from its first day up to the
    first day of month [k + 1]. *)
Lemma month_index_of_day_spec z k :
  month_index_of_day z = k <-> month_day k <= z < month_day (k + 1).
Proof.
  pose proof (civil_from_days_facts z) as Hz. unfold month_index_of_day.
  destruct (time.civil_from_days z) as [[y m] d].
  destruct Hz as (_ & _ & _ & Hlo & Hhi).
  replace (12 * y + m) with (12 * y + (m - 1) + 1) in Hhi by lia.
  set (k' := 12 * y + (m - 1)) in *. split.
  - intros <-. lia.
  - intros [Hlo' Hhi'].
    destruct (Z.lt_trichotomy k' k) as [Hlt|[Heq|Hgt]]; [|done|].
    + pose proof (month_day_mono (k' + 1) k). lia.
    + pose proof (month_day_mono (k + 1) k'). lia.
Qed.

Lemma days_from_civil_day y m d :
  time.days_from_civil y m d = time.days_from_civil y m 1 + (d - 1).
Proof. unfold time.days_from_civil. lia. Qed.

(** The first day of month [k] is the first of that month. *)
Lemma civil_from_days_month_day k :
  time.civil_from_days (month_day k) = (k / 12, k mod 12 + 1, 1).
Proof.
  pose proof (civil_from_days_facts (month_day k)) as Hz.
  pose proof (proj2 (month_index_of_day_spec (month_day k) k)) as Hk.
  pose proof (month_day_step k) as Hstep.
  unfold month_index_of_day in Hk.
  destruct (time.civil_from_days (month_day k)) as [[y m] d].
  destruct Hz as (Hm & Hd & Hrt & _).
  specialize (Hk ltac:(lia)).
  assert (Hy : y = k / 12) by (Z.div_mod_to_equations; lia).
  assert (Hmm : m = k mod 12 + 1) by (Z.div_mod_to_equations; lia).
  subst y m. rewrite days_from_civil_day in Hrt.
  fold (month_day k) in Hrt.
  repeat f_equal. lia.
Qed.

Lemma Date_midnight year month day nsec :
  time.Date year month day 0 0 0 nsec
  = (month_day (12 * year + (month - 1)) + (day - 1)) * time.nsPerDay + nsec.
Proof.
  unfold time.Date, month_day.
  replace (12 * year + (month - 1)) with (month - 1 + year * 12) by lia.
  rewrite Z.div_add, Z.mod_add by lia.
  replace ((month - 1) / 12 + year) with (year + (month - 1) / 12) by lia.
  lia.
Qed.

Lemma date_month_day k :
  time.date (month_day k * time.nsPerDay) = (k / 12, k mod 12 + 1, 1).
Proof.
  unfold time.date. rewrite Z.div_mul by done.
  apply civil_from_days_month_day.
Qed.

Lemma AddDate_month k :
  time.AddDate (month_day k * time.nsPerDay) 0 1 0
  = month_day (k + 1) * time.nsPerDay.
Proof.
  unfold time.AddDate, time.Year, time.Month, time.Day.
  rewrite date_month_day, Z.mod_mul by done. cbn [fst snd].
  rewrite Date_midnight. f_equal.
  replace (12 * (k / 12 + 0) + (k mod 12 + 1 + 1 - 1)) with (k + 1)
    by (Z.div_mod_to_equations; lia).
  lia.
Qed.

Lemma AddDate_year year :
  time.AddDate (month_day (12 * year) * time.nsPerDay) 1 0 0
  = month_day (12 * (year + 1)) * time.nsPerDay.
Proof.
  unfold time.AddDate, time.Year, time.Month, time.Day.
  rewrite date_month_day, Z.mod_mul by done. cbn [fst snd].
  rewrite Date_midnight.
  replace (12 * (12 * year / 12 + 1) + (12 * year mod 12 + 1 + 0 - 1))
    with (12 * (year + 1)) by (Z.div_mod_to_equations; lia).
  lia.
Qed.

Lemma month_index_day t :
  month_index t = month_index_of_day (t / time.nsPerDay).
Proof.
  unfold month_index, month_index_of_day, time.Year, time.Month, time.date.
  by destruct (time.civil_from_days _) as [[y m] d].
Qed.

Lemma day_bounds t lo hi :
  lo <= t / time.nsPerDay < hi
  <-> lo * time.nsPerDay <= t <= hi * time.nsPerDay - 1.
Proof.
  unfold time.nsPerDay, time.nsPerSecond. Z.div_mod_to_equations. lia.
Qed.

(** An instant lies in month [k] exactly when it lies between the first
    instant of that month and the last instant before the next. *)
Lemma month_index_spec t k :
  month_index t = k
  <-> within (month_day k * time.nsPerDay)
        (month_day (k + 1) * time.nsPerDay - 1) t.
Proof.
  unfold within. rewrite <- day_bounds, month_index_day.
  apply month_index_of_day_spec.
Qed.

Lemma Month_range t : 1 <= time.Month t <= 12.
Proof.
  pose proof (civil_from_days_facts (t / time.nsPerDay)) as Hz.
  unfold time.Month, time.date.
  destruct (time.civil_from_days _) as [[y m] d]. simpl. tauto.
Qed.

Lemma Year_spec t year :
  time.Year t = year
  <-> within (month_day (12 * year) * time.nsPerDay)
        (month_day (12 * (year + 1)) * time.nsPerDay - 1) t.
Proof.
  unfold within. rewrite <- day_bounds.
  pose proof (Month_range t) as Hm.
  pose proof (proj1 (month_index_of_day_spec (t / time.nsPerDay)
                       (month_index t)) (eq_sym (month_index_day t)))
    as [Hlo Hhi].
  unfold month_index in *. set (k := 12 * time.Year t + (time.Month t - 1)) in *.
  split.
  - intros Hy.
    pose proof (month_day_mono (12 * year) k).
    pose proof (month_day_mono (k + 1) (12 * (year + 1))). lia.
  - intros [Hlo' Hhi'].
    destruct (Z.lt_trichotomy (time.Year t) year) as [Hlt|[Heq|Hgt]]; [|done|].
    + pose proof (month_day_mono (k + 1) (12 * year)). lia.
    + pose proof (month_day_mono (12 * (year + 1)) k). lia.
Qed.

(** The interval [GetPhotos] builds for a year is that calendar year. *)
Lemma year_interval_is_calendar_year filter t :
  within (service.year_start filter) (service.year_end filter) t
  <-> time.Year t = service.PhotoFilter.Year filter.
Proof.
  unfold service.year_end, service.year_start, time.Add, time.Nanosecond,
    time.January.
  rewrite Date_midnight.
  replace (12 * service.PhotoFilter.Year filter + (1 - 1))
    with (12 * service.PhotoFilter.Year filter) by lia.
  replace ((month_day (12 * service.PhotoFilter.Year filter) + (1 - 1))
           * time.nsPerDay + 0)
    with (month_day (12 * service.PhotoFilter.Year filter) * time.nsPerDay)
    by lia.
  rewrite AddDate_year. symmetry. apply Year_spec.
Qed.

(** The interval [GetPhotos] builds for a month is that calendar month;
    a month number outside 1..12 carries over into the years. *)
Lemma month_interval_is_calendar_month filter t :
  within (service.month_start filter) (service.month_end filter) t
  <-> 12 * time.Year t + time.Month t
      = 12 * service.PhotoFilter.Year filter + service.PhotoFilter.Month filter.
Proof.
  unfold service.month_end, service.month_start, time.Add, time.Nanosecond.
  rewrite Date_midnight.
  set (k := 12 * service.PhotoFilter.Year filter
            + (service.PhotoFilter.Month filter - 1)).
  replace ((month_day k + (1 - 1)) * time.nsPerDay + 0)
    with (month_day k * time.nsPerDay) by lia.
  rewrite AddDate_month.
  rewrite <- (month_index_spec t k). unfold month_index, k. lia.
Qed.
End Calendar.

(** ** Listing *)
Section Listing.
Import database service.
Variable P : Platform.

Lemma default_orders :
  sqlite.order_terms P ["exif_date DESC"; "upload_date DESC"]
  = Some default_compare.
Proof. reflexivity. Qed.

Lemma not_after_default p q :
  sqlite.not_after default_compare p q <-> default_order p q.
Proof.
  unfold sqlite.not_after, default_compare, default_order, sqlite.compare_desc.
  destruct (ExifDate p) as [x|], (ExifDate q) as [y|].
  - destruct (Z.compare_spec y x),
      (Z.compare_spec (UploadDate q) (UploadDate p));
      split; intros Hgoal; try discriminate; try lia; try congruence.
  - split; [done|discriminate].
  - split; [by intros Hgoal|by intros []].
  - destruct (Z.compare_spec (UploadDate q) (UploadDate p));
      split; intros Hgoal; try discriminate; try lia; try congruence.
Qed.

#[local] Instance default_total : Total (sqlite.not_after default_compare).
Proof.
  intros p q. rewrite !not_after_default. unfold default_order.
  destruct (ExifDate p), (ExifDate q); try tauto; lia.
Qed.

#[local] Instance default_transitive :
  Transitive (sqlite.not_after default_compare).
Proof.
  intros p q r. rewrite !not_after_default. unfold default_order.
  destruct (ExifDate p), (ExifDate q), (ExifDate r); try tauto; lia.
Qed.

Lemma StronglySorted_default_order l :
  StronglySorted (sqlite.not_after default_compare) l ->
  StronglySorted default_order l.
Proof.
  induction 1 as [|r l Hl IH Hall]; constructor; [done|].
  eapply Forall_impl; [exact Hall|]. intros q. apply not_after_default.
Qed.

Lemma StronglySorted_paginate (R : relation Photo) q l :
  StronglySorted R l -> StronglySorted R (query.paginate q l).
Proof.
  intros Hl. unfold query.paginate.
  assert (Hdrop : forall n l', StronglySorted R l' ->
                               StronglySorted R (drop n l')).
  { intros n l' H. rewrite <- (take_drop n l') in H.
    by apply StronglySorted_app_1_r in H. }
  assert (Htake : forall n l', StronglySorted R l' ->
                               StronglySorted R (take n l')).
  { intros n l' H. rewrite <- (take_drop n l') in H.
    by apply StronglySorted_app_1_l in H. }
  destruct (query.offset q), (query.limit q); auto.
Qed.

(** What [Find] returns for a statement in the default order. *)
Lemma Find_default env q db :
  fault env F_DBFind = None ->
  query.orders q = ["exif_date DESC"; "upload_date DESC"] ->
  exists photos,
    query.Find P env q db = inr photos
    /\ StronglySorted default_order photos
    /\ (query.limit q = None -> query.offset q = None ->
        forall r, In r photos
                  <-> In r (rows db)
                      /\ forallb (fun cond => cond r) (query.wheres q) = true).
Proof.
  intros Hf Hord. unfold query.Find. rewrite Hf, Hord, default_orders.
  eexists. split; [reflexivity|]. split.
  - apply StronglySorted_default_order, StronglySorted_paginate.
    apply StronglySorted_merge_sort; apply _.
  - intros Hl Ho r. unfold query.paginate. rewrite Hl, Ho.
    rewrite <- (filter_In
      (fun r => forallb (fun cond => cond r) (query.wheres q)) r (rows db)).
    split; intros Hr; apply list_elem_of_In; apply list_elem_of_In in Hr.
    + by rewrite merge_sort_Permutation in Hr.
    + by rewrite merge_sort_Permutation.
Qed.

Lemma between_spec v lo hi :
  sqlite.between v lo hi = true <-> exists d, v = Some d /\ within lo hi d.
Proof.
  unfold sqlite.between, within. destruct v as [x|].
  - rewrite andb_true_iff, !Z.leb_le. split.
    + intros ?. by exists x.
    + by intros (d & [= ->] & ?).
  - split; [done|]. by intros (d & [=] & _).
Qed.

Lemma date_clause_spec lo hi r :
  date_clause lo hi r = true <-> either_date_within lo hi r.
Proof.
  unfold date_clause, either_date_within.
  rewrite orb_true_iff, !between_spec. split.
  - intros [H|(d & [= <-] & H)]; [by left|by right].
  - intros [H|H]; [by left|right; by eexists].
Qed.

(** C8: a filter with a month and no year is answered with the
    validation error, never with rows. *)
Theorem C8_month_without_year_is_rejected env filter db :
  PhotoFilter.Month filter <> 0 ->
  PhotoFilter.Year filter = 0 ->
  GetPhotos P env filter db = inl ErrMonthRequiresYear.
Proof.
  intros Hm Hy. unfold GetPhotos. rewrite Hy.
  apply Z.eqb_neq in Hm. by rewrite Hm.
Qed.

(** C5, amended: without [OrderBy] the rows come back ordered by
    capture instant, newest first, rows without a capture instant
    after all rows that have one, and by ingestion instant, newest
    first, among rows that agree on the capture instant. *)
Theorem C5_default_order_is_capture_then_ingestion env filter db :
  PhotoFilter.OrderBy filter = "" ->
  (PhotoFilter.Month filter <> 0 -> PhotoFilter.Year filter <> 0) ->
  fault env F_DBFind = None ->
  exists photos,
    GetPhotos P env filter db = inr photos
    /\ StronglySorted default_order photos.
Proof.
  intros Hord Hmy Hf. unfold GetPhotos. rewrite Hord.
  assert (negb (PhotoFilter.Month filter =? 0)
          && (PhotoFilter.Year filter =? 0) = false) as ->.
  { destruct (Z.eqb_spec (PhotoFilter.Month filter) 0); [done|].
    destruct (Z.eqb_spec (PhotoFilter.Year filter) 0); [|done].
    by destruct Hmy. }
  cbn [String.eqb negb].
  match goal with
  | |- context [query.Find P env ?q db] =>
      assert (Hq : query.orders q = ["exif_date DESC"; "upload_date DESC"])
        by (unfold when; repeat case_match; reflexivity);
      destruct (Find_default env q db Hf Hq) as (photos & -> & Hsorted & _)
  end.
  by exists photos.
Qed.

(** What the two date conditions of [GetPhotos] select. *)
Lemma GetPhotos_date_filter env filter db :
  PhotoFilter.Year filter <> 0 ->
  PhotoFilter.Filename filter = "" ->
  PhotoFilter.Tag filter = "" ->
  PhotoFilter.OrderBy filter = "" ->
  PhotoFilter.Limit filter <= 0 ->
  PhotoFilter.Offset filter <= 0 ->
  fault env F_DBFind = None ->
  exists photos,
    GetPhotos P env filter db = inr photos
    /\ forall r,
         In r photos
         <-> In r (rows db)
             /\ either_date_within (year_start filter) (year_end filter) r
             /\ (PhotoFilter.Month filter <> 0 ->
                 either_date_within (month_start filter) (month_end filter) r).
Proof.
  intros Hy Hname Htag Hord Hlim Hoff Hf. unfold GetPhotos.
  rewrite Hname, Htag, Hord.
  apply Z.eqb_neq in Hy. rewrite Hy, andb_false_r.
  apply Z.ltb_ge in Hlim, Hoff. rewrite Hlim, Hoff.
  cbn [String.eqb negb when].
  match goal with
  | |- context [query.Find P env ?q db] =>
      assert (Hq : query.orders q = ["exif_date DESC"; "upload_date DESC"])
        by (by destruct (PhotoFilter.Month filter =? 0));
      destruct (Find_default env q db Hf Hq) as (photos & -> & _ & Hin)
  end.
  exists photos. split; [done|]. intros r.
  destruct (Z.eqb_spec (PhotoFilter.Month filter) 0) as [Hm|Hm];
    cbn [negb] in Hin; rewrite Hin by done; cbn;
    rewrite ?andb_true_r, ?andb_true_iff, !date_clause_spec; tauto.
Qed.

Lemma either_date_within_year filter r :
  either_date_within (year_start filter) (year_end filter) r
  <-> either_date_in_year (PhotoFilter.Year filter) r.
Proof.
  unfold either_date_within, either_date_in_year.
  rewrite year_interval_is_calendar_year.
  split; (intros [(d & Hd & H)|H]; [left; exists d; split; [done|]|by right]);
    by apply year_interval_is_calendar_year.
Qed.

Lemma month_interval_of_a_month filter t :
  1 <= PhotoFilter.Month filter <= 12 ->
  within (month_start filter) (month_end filter) t
  <-> time.Year t = PhotoFilter.Year filter
      /\ time.Month t = PhotoFilter.Month filter.
Proof.
  intros Hm. rewrite month_interval_is_calendar_month.
  pose proof (Month_range t). lia.
Qed.

Lemma either_date_within_month filter r :
  1 <= PhotoFilter.Month filter <= 12 ->
  either_date_within (month_start filter) (month_end filter) r
  <-> either_date_in_month (PhotoFilter.Year filter)
        (PhotoFilter.Month filter) r.
Proof.
  intros Hm. unfold either_date_within, either_date_in_month.
  rewrite (month_interval_of_a_month filter _ Hm).
  split; (intros [(d & Hd & H)|H]; [left; exists d; split; [done|]|by right]);
    by apply (month_interval_of_a_month filter d Hm).
Qed.

End Listing.

Section ListingExamples.
Import database service fixture.



Example june_2023_filter_returns :
  GetPhotos host (at_time 0) (by_month 2023 6) album
  = inr [row 1 "a.jpg" march_2024 (Some june_2023);
         row 3 "c.jpg" june_2023 None].
Proof. vm_compute. reflexivity. Qed.

(** C5 fails as stated: in the default order the first row of the
    album (organizing instant June 2023) precedes the second
    (organizing instant March 2024). *)
Lemma C5_older_capture_date_comes_first :
  let r1 := row 1 "a.jpg" march_2024 (Some june_2023) in
  let r2 := row 2 "b.jpg" march_2024_later None in
  let r3 := row 3 "c.jpg" june_2023 None in
  GetPhotos host (at_time 0) no_filter album = inr [r1; r2; r3]
  /\ organizingTimestamp r1 < organizingTimestamp r2.
Proof. split; vm_compute; reflexivity. Qed.

Lemma C5_default_order_is_capture_then_ingestion_witness :
  exists photos,
    GetPhotos host (at_time 0) no_filter album = inr photos
    /\ StronglySorted default_order photos.
Proof.
  apply (C5_default_order_is_capture_then_ingestion host (at_time 0)
           no_filter album).
  - reflexivity.
  - intros Hm. by destruct Hm.
  - reflexivity.
Defined.

Lemma C8_month_without_year_is_rejected_witness :
  GetPhotos host (at_time 0) (by_month 0 6) album = inl ErrMonthRequiresYear.
Proof.
  apply (C8_month_without_year_is_rejected host (at_time 0)
           (by_month 0 6) album); [discriminate|reflexivity].
Defined.
End ListingExamples.

(** ** Timeline *)
Section Timeline.
Import database service.
Variable P : Platform.

Lemma timeline_step_bucket limit tl r y m :
  bucket (timeline_step limit tl r) y m
  = if in_month y m r
    then Some (let b := default [] (bucket tl y m) in
               if (limit =? 0) || (Z.of_nat (length b) <? limit)
               then (b ++ [r])%list else b)
    else bucket tl y m.
Proof.
  unfold timeline_step, bucket, in_month.
  set (yr := time.Year (dateToUse r)). set (mr := time.Month (dateToUse r)).
  destruct (Z.eqb_spec yr y) as [<-|Hy]; simpl.
  - rewrite lookup_insert_eq; simpl.
    destruct (Z.eqb_spec mr m) as [<-|Hm].
    + destruct (tl !! yr) as [months|] eqn:Htl; simpl.
      * rewrite Htl; simpl.
        destruct (months !! mr) as [b|] eqn:Hb; simpl.
        -- rewrite Hb; simpl. case_match; [by rewrite lookup_insert_eq|done].
        -- rewrite lookup_insert_eq; simpl.
           case_match; by rewrite lookup_insert_eq.
      * rewrite lookup_insert_eq; simpl. rewrite lookup_empty; simpl.
        rewrite lookup_insert_eq; simpl.
        case_match; by rewrite lookup_insert_eq.
    + destruct (tl !! yr) as [months|] eqn:Htl; simpl.
      * rewrite Htl; simpl.
        destruct (months !! mr) as [b|] eqn:Hb; simpl.
        -- rewrite Hb; simpl. case_match; [by rewrite lookup_insert_ne|done].
        -- rewrite lookup_insert_eq; simpl.
           case_match; by rewrite ?lookup_insert_ne.
      * rewrite lookup_insert_eq; simpl. rewrite lookup_empty; simpl.
        rewrite lookup_insert_eq; simpl.
        case_match; by rewrite ?lookup_insert_ne, lookup_empty.
  - rewrite lookup_insert_ne by done.
    destruct (tl !! yr); [done|]. by rewrite lookup_insert_ne.
Qed.

Lemma capped_snoc limit l r :
  capped limit (l ++ [r])
  = if (limit =? 0) || (Z.of_nat (length (capped limit l)) <? limit)
    then (capped limit l ++ [r])%list else capped limit l.
Proof.
  unfold capped. destruct (Z.eqb_spec limit 0) as [->|Hl]; [done|]; simpl.
  rewrite length_take.
  destruct (Z.ltb_spec (Z.of_nat (Z.to_nat limit `min` length l)) limit)
    as [Hlt|Hge].
  - rewrite !take_ge by (rewrite ?length_app; simpl; lia). done.
  - rewrite take_app_le by lia. done.
Qed.

Lemma capped_bucket_of limit l :
  default [] (capped limit <$> bucket_of l) = capped limit l.
Proof.
  destruct l; simpl; [|done]. unfold capped.
  destruct (limit =? 0); [done|]. by rewrite take_nil.
Qed.

Lemma bucket_of_snoc l r : bucket_of (l ++ [r]) = Some (l ++ [r])%list.
Proof. by destruct l. Qed.

(** The grouping loop: each bucket holds the rows of its month in the
    order they came in, cut to the limit. *)
Lemma timeline_buckets limit photos y m :
  bucket (fold_left (timeline_step limit) photos ∅) y m
  = capped limit <$> bucket_of (List.filter (in_month y m) photos).
Proof.
  induction photos as [|r photos IH] using rev_ind; [done|].
  rewrite fold_left_app. cbn [fold_left].
  rewrite timeline_step_bucket, IH, List.filter_app. cbn [List.filter].
  destruct (in_month y m r); [|by rewrite app_nil_r].
  cbv zeta. rewrite capped_bucket_of, bucket_of_snoc. cbn [fmap option_fmap option_map].
  by rewrite capped_snoc.
Qed.

Lemma filter_all {A} (l : list A) : List.filter (fun _ => true) l = l.
Proof. induction l as [|x l IH]; simpl; by rewrite ?IH. Qed.

(** The rows the timeline groups: the whole table in default order. *)
Lemma timeline_rows env db :
  fault env F_DBFind = None ->
  exists photos,
    query.Find P env
      (query.Order "upload_date DESC"
         (query.Order "exif_date DESC" query.Model)) db = inr photos
    /\ photos ≡ₚ rows db
    /\ StronglySorted default_order photos.
Proof.
  intros Hf.
  destruct (Find_default P env
              (query.Order "upload_date DESC"
                 (query.Order "exif_date DESC" query.Model)) db Hf eq_refl)
    as (photos & Hfind & Hsorted & _).
  exists photos. split; [done|]. split; [|done].
  revert Hfind. unfold query.Find. rewrite Hf; simpl.
  intros [= <-]. unfold query.paginate; simpl.
  by rewrite merge_sort_Permutation, filter_all.
Qed.

(** C10: with a limit of 0 every row appears in the bucket of its year
    and month; with a negative limit the bucket of every year and
    month that has rows exists and is empty. *)
Theorem C10_timeline_limit_zero_and_negative env limitPerMonth db :
  fault env F_DBFind = None ->
  exists photos timeline,
    GetPhotosByTimeline P env limitPerMonth db = inr timeline
    /\ photos ≡ₚ rows db
    /\ (limitPerMonth = 0 ->
        (forall y m,
           bucket timeline y m
           = bucket_of (List.filter (in_month y m) photos))
        /\ (forall r, In r (rows db) ->
              exists b,
                bucket timeline (time.Year (dateToUse r))
                  (time.Month (dateToUse r)) = Some b
                /\ In r b))
    /\ (limitPerMonth < 0 ->
        (forall y m,
           bucket timeline y m
           = (fun _ => []) <$> bucket_of (List.filter (in_month y m) photos))
        /\ (forall r, In r (rows db) ->
              bucket timeline (time.Year (dateToUse r))
                (time.Month (dateToUse r)) = Some [])).
Proof.
  intros Hf. destruct (timeline_rows env db Hf) as (photos & Hfind & Hperm & _).
  exists photos, (fold_left (timeline_step limitPerMonth) photos ∅).
  unfold GetPhotosByTimeline. rewrite Hfind.
  split; [done|]. split; [done|].
  assert (Hmine : forall r, In r (rows db) ->
    exists p l, List.filter (in_month (time.Year (dateToUse r))
                               (time.Month (dateToUse r))) photos = p :: l
                /\ In r (p :: l)).
  { intros r Hr.
    assert (Hin : In r (List.filter (in_month (time.Year (dateToUse r))
                                       (time.Month (dateToUse r))) photos)).
    { apply filter_In. split.
      - apply list_elem_of_In. rewrite Hperm. by apply list_elem_of_In.
      - unfold in_month. by rewrite !Z.eqb_refl. }
    destruct (List.filter _ photos) as [|p l]; [done|]. by exists p, l. }
  split.
  - intros ->. split.
    + intros y m. rewrite timeline_buckets.
      by destruct (bucket_of _).
    + intros r Hr. destruct (Hmine r Hr) as (p & l & Heq & Hin).
      exists (p :: l). by rewrite timeline_buckets, Heq.
  - intros Hneg.
    assert (Hcap : forall l, capped limitPerMonth l = []).
    { intros l. unfold capped.
      destruct (Z.eqb_spec limitPerMonth 0); [lia|].
      by replace (Z.to_nat limitPerMonth) with 0%nat by lia. }
    split.
    + intros y m. rewrite timeline_buckets.
      destruct (bucket_of _); simpl; by rewrite ?Hcap.
    + intros r Hr. destruct (Hmine r Hr) as (p & l & Heq & Hin).
      rewrite timeline_buckets, Heq; simpl. by rewrite Hcap.
Qed.
End Timeline.

Section TimelineExamples.
Import database service fixture.

Lemma C10_timeline_limit_zero_and_negative_witness :
  exists photos timeline,
    GetPhotosByTimeline host (at_time 0) (-1) album = inr timeline
    /\ photos ≡ₚ rows album
    /\ (-1 = 0 ->
        (forall y m,
           bucket timeline y m
           = bucket_of (List.filter (in_month y m) photos))
        /\ (forall r, In r (rows album) ->
              exists b,
                bucket timeline (time.Year (dateToUse r))
                  (time.Month (dateToUse r)) = Some b
                /\ In r b))
    /\ (-1 < 0 ->
        (forall y m,
           bucket timeline y m
           = (fun _ => []) <$> bucket_of (List.filter (in_month y m) photos))
        /\ (forall r, In r (rows album) ->
              bucket timeline (time.Year (dateToUse r))
                (time.Month (dateToUse r)) = Some [])).
Proof.
  apply (C10_timeline_limit_zero_and_negative host (at_time 0) (-1) album).
  reflexivity.
Defined.

Example timeline_without_limit :
  GetPhotosByTimeline host (at_time 0) 0 album
  = inr {[ 2023 := {[ 6 := [row 1 "a.jpg" march_2024 (Some june_2023);
                            row 3 "c.jpg" june_2023 None] ]};
           2024 := {[ 3 := [row 2 "b.jpg" march_2024_later None] ]} ]}.
Proof. vm_compute. reflexivity. Qed.

Example timeline_with_negative_limit :
  GetPhotosByTimeline host (at_time 0) (-5) album
  = inr {[ 2023 := {[ 6 := [] ]}; 2024 := {[ 3 := [] ]} ]}.
Proof. vm_compute. reflexivity. Qed.

Example timeline_handler_default_is_no_limit :
  api.GetPhotosTimelineHandler host (at_time 0) None album
  = api.StatusOK
      {[ 2023 := {[ 6 := [row 1 "a.jpg" march_2024 (Some june_2023);
                          row 3 "c.jpg" june_2023 None] ]};
         2024 := {[ 3 := [row 2 "b.jpg" march_2024_later None] ]} ]}.
Proof. vm_compute. reflexivity. Qed.

Example timeline_handler_accepts_negative_limit :
  api.GetPhotosTimelineHandler host (at_time 0) (Some "-1") album
  = api.StatusOK {[ 2023 := {[ 6 := [] ]}; 2024 := {[ 3 := [] ]} ]}.
Proof. vm_compute. reflexivity. Qed.

Example timeline_handler_rejects_non_numbers :
  api.GetPhotosTimelineHandler host (at_time 0) (Some "ten") album
  = api.StatusBadRequest.
Proof. vm_compute. reflexivity. Qed.

Example timeline_with_limit_one :
  GetPhotosByTimeline host (at_time 0) 1 album
  = inr {[ 2023 := {[ 6 := [row 1 "a.jpg" march_2024 (Some june_2023)] ]};
           2024 := {[ 3 := [row 2 "b.jpg" march_2024_later None] ]} ]}.
Proof. vm_compute. reflexivity. Qed.
End TimelineExamples.

(** ** What an upload touches *)
Section UploadEffects.
Import database service.
Variable P : Platform.
Variable s : PhotoService.

Lemma UploadPhoto_check_stopped env file w r w1 :
  UploadPhoto_check P env file w = (inl r, w1) ->
  snd r <> None
  /\ (w1 = w \/ w1 = os_Remove (tempFilePath P file) w).
Proof.
  unfold UploadPhoto_check. fold (tempFilePath P file).
  rewrite write_file_twice.
  repeat case_match; intros [= <- <-]; (split; [done|]);
    rewrite ?os_Remove_write_file; auto.
Qed.

(** The worlds an upload can end in, once it got past the look-up. *)
Lemma UploadPhoto_store_world env file st w res w' :
  UploadPhoto_store s env file st w = (res, w') ->
  let p := placement (FileManager s) (st_photoOrganizeDate st)
             (fh_Filename file) in
  (snd res <> None
   /\ (w' = os_Remove (st_tempFilePath st) w
       \/ w' = os_Remove (st_tempFilePath st) (write_file p [] w)
       \/ w' = os_Remove (st_tempFilePath st)
                 (os_Remove p (write_file p (fh_Content file) w))))
  \/ (exists db photo,
        res = (Some photo, None)
        /\ gorm.Create env (catalog w)
             {| ID := 0; Filename := fh_Filename file; StoredPath := p;
                ThumbnailPath := ""; UploadDate := st_uploadDate st;
                ExifDate := st_exifDateTime st; Hash := st_hash st;
                FileSize := fh_Size file; MimeType := fh_ContentType file;
                Width := 0; Height := 0; Description := ""; Tags := "" |}
           = inr (db, photo)
        /\ w' = os_Remove (st_tempFilePath st)
                  (set_catalog db (write_file p (fh_Content file) w))).
Proof.
  unfold UploadPhoto_store, storage.SavePhoto.
  fold (placement (FileManager s) (st_photoOrganizeDate st) (fh_Filename file)).
  set (p := placement _ _ _). cbv zeta.
  destruct (fault env F_SaveMkdir); [intros [= <- <-]; left; auto|].
  destruct (fault env F_SaveOpen); [intros [= <- <-]; left; auto|].
  destruct (fault env F_SaveCreate); [intros [= <- <-]; left; auto|].
  destruct (fault env F_SaveCopy); [intros [= <- <-]; left; auto|].
  cbn [catalog write_file set_files].
  destruct (gorm.Create _ _ _) as [err|[db photo]]; intros [= <- <-].
  - left. auto.
  - right. by exists db, photo.
Qed.

(** An upload that got past the look-up stores under [destination]. *)
Lemma UploadPhoto_worlds env file w res w' :
  UploadPhoto P s env file w = (res, w') ->
  let tmp := tempFilePath P file in
  let p := destination P s env file in
  let staged := write_file tmp (fh_Content file) w in
  (snd res <> None
   /\ (w' = w \/ w' = os_Remove tmp w
       \/ w' = os_Remove tmp staged
       \/ w' = os_Remove tmp (write_file p [] staged)
       \/ w' = os_Remove tmp
                 (os_Remove p (write_file p (fh_Content file) staged))))
  \/ (exists db photo,
        res = (Some photo, None)
        /\ gorm.Create env (catalog w) (new_row P s env file) = inr (db, photo)
        /\ w' = os_Remove tmp
                  (set_catalog db (write_file p (fh_Content file) staged))).
Proof.
  unfold UploadPhoto.
  destruct (UploadPhoto_check P env file w) as [[r|st] w1] eqn:Hcheck.
  - intros [= <- <-].
    apply UploadPhoto_check_stopped in Hcheck as [Herr [->| ->]]; left; auto.
  - apply UploadPhoto_check_staged in Hcheck as (-> & -> & _ & _).
    intros Hstore. apply UploadPhoto_store_world in Hstore.
    cbn [st_tempFilePath st_photoOrganizeDate st_uploadDate st_exifDateTime
         st_hash] in Hstore.
    fold (destination P s env file) in Hstore.
    destruct Hstore as [[Herr Hw]|(db & photo & -> & Hcreate & ->)].
    + left. split; [done|]. tauto.
    + right. by exists db, photo.
Qed.

(** X1.  Whatever the outcome, the staging file is gone when [UploadPhoto]
    returns, unless the upload stopped before creating it and changed
    nothing at all. *)
Theorem UploadPhoto_removes_staging_file env file w res w' :
  UploadPhoto P s env file w = (res, w') ->
  w' = w \/ files w' !! tempFilePath P file = None.
Proof.
  intros Hup. apply UploadPhoto_worlds in Hup. cbv zeta in Hup.
  destruct Hup as [[_ [->|[->|[->|[->| ->]]]]]|(db & photo & _ & _ & ->)];
    [by left|right..]; apply lookup_delete_eq.
Qed.

(** X2.  [UploadPhoto] changes no path other than the staging path and the
    destination of the upload, and it changes the catalog only when it
    succeeds. *)
Theorem UploadPhoto_touches_two_paths env file w res w' :
  UploadPhoto P s env file w = (res, w') ->
  (forall path,
     path <> tempFilePath P file -> path <> destination P s env file ->
     files w' !! path = files w !! path)
  /\ (snd res <> None -> catalog w' = catalog w).
Proof.
  intros Hup. apply UploadPhoto_worlds in Hup. cbv zeta in Hup.
  destruct Hup as [[Herr [->|[->|[->|[->| ->]]]]]|(db & photo & -> & _ & ->)];
    (split; [intros path Htmp Hp|done]);
    unfold os_Remove, write_file, set_catalog, set_files; cbn [files catalog];
    rewrite ?lookup_delete_ne, ?lookup_insert_ne by done; done.
Qed.

(** X3.  A successful upload leaves the bytes of the upload at the stored
    path of the new row (when that path is not the staging path), and
    the new row, appended to the catalog under the next key, carries the
    name, the digest, the size and the type of the upload. *)
Theorem UploadPhoto_success_stores_content env file w photo w' :
  UploadPhoto P s env file w = ((Some photo, None), w') ->
  rows (catalog w') = (rows (catalog w) ++ [photo])%list
  /\ next_id (catalog w') = next_id (catalog w) + 1
  /\ ID photo = next_id (catalog w)
  /\ Filename photo = fh_Filename file
  /\ Hash photo = md5_hex P (fh_Content file)
  /\ FileSize photo = fh_Size file
  /\ MimeType photo = fh_ContentType file
  /\ (StoredPath photo <> tempFilePath P file ->
      files w' !! StoredPath photo = Some (fh_Content file)).
Proof.
  intros Hup. pose proof Hup as Hw.
  apply UploadPhoto_success in Hup as (_ & _ & _ & -> & ->).
  apply UploadPhoto_worlds in Hw. cbv zeta in Hw.
  destruct Hw as [[Herr _]|(db & photo & _ & _ & ->)]; [done|].
  repeat (split; [reflexivity|]).
  cbn [StoredPath with_ID new_row]. fold (destination P s env file).
  intros Hne. unfold os_Remove, write_file, set_catalog, set_files;
    cbn [files catalog].
  by rewrite lookup_delete_ne, lookup_insert_eq.
Qed.
End UploadEffects.

Section UploadEffectExamples.
Import database service fixture.

Lemma UploadPhoto_removes_staging_file_witness :
  snd (UploadPhoto host svc (at_time march_2024) (upload "a.jpg" plain_A)
         empty_world)
  = empty_world
  \/ files (snd (UploadPhoto host svc (at_time march_2024)
                   (upload "a.jpg" plain_A) empty_world))
       !! tempFilePath host (upload "a.jpg" plain_A) = None.
Proof.
  apply (UploadPhoto_removes_staging_file host svc (at_time march_2024)
           (upload "a.jpg" plain_A) empty_world
           (fst (UploadPhoto host svc (at_time march_2024)
                   (upload "a.jpg" plain_A) empty_world))).
  apply surjective_pairing.
Defined.

Lemma UploadPhoto_touches_two_paths_witness :
  (forall path,
     path <> tempFilePath host (upload "b.jpg" plain_B) ->
     path <> destination host svc (commit_fails march_2024_later)
               (upload "b.jpg" plain_B) ->
     files after_a_jpg !! path = files after_a_jpg !! path)
  /\ (Some (ErrSaveMetadata (errorString "database is locked")) <> None ->
      catalog after_a_jpg = catalog after_a_jpg).
Proof.
  apply (UploadPhoto_touches_two_paths host svc
           (commit_fails march_2024_later) (upload "b.jpg" plain_B)
           after_a_jpg
           (None, Some (ErrSaveMetadata (errorString "database is locked")))
           after_a_jpg).
  vm_compute. reflexivity.
Defined.

Lemma UploadPhoto_success_stores_content_witness :
  rows (catalog after_a_jpg) = (rows (catalog empty_world) ++ [first_a_jpg])%list
  /\ next_id (catalog after_a_jpg) = next_id (catalog empty_world) + 1
  /\ ID first_a_jpg = next_id (catalog empty_world)
  /\ Filename first_a_jpg = "a.jpg"
  /\ Hash first_a_jpg = md5_hex host plain_A
  /\ FileSize first_a_jpg = 2
  /\ MimeType first_a_jpg = "image/jpeg"
  /\ (StoredPath first_a_jpg <> tempFilePath host (upload "a.jpg" plain_A) ->
      files after_a_jpg !! StoredPath first_a_jpg = Some plain_A).
Proof.
  apply (UploadPhoto_success_stores_content host svc (at_time march_2024)
           (upload "a.jpg" plain_A) empty_world first_a_jpg after_a_jpg).
  vm_compute. reflexivity.
Defined.
End UploadEffectExamples.

(** ** The catalog under uploads *)
Section CatalogInvariant.
Import database service.
Variable P : Platform.
Variable s : PhotoService.

Lemma existsb_fresh {A} (f : A -> string) (x : string) (l : list A) :
  existsb (fun r => String.eqb (f r) x) l = false -> ~ In x (map f l).
Proof.
  intros Hex (r & Hr & Hin)%in_map_iff.
  rewrite <- not_true_iff_false in Hex. apply Hex, existsb_exists.
  exists r. split; [done|]. by apply String.eqb_eq.
Qed.

Lemma unique_violation_fresh db p :
  gorm.unique_violation db p = None ->
  ~ In (Filename p) (map Filename (rows db))
  /\ ~ In (StoredPath p) (map StoredPath (rows db))
  /\ ~ In (Hash p) (map Hash (rows db)).
Proof.
  unfold gorm.unique_violation.
  destruct (existsb (fun r => String.eqb (Filename r) (Filename p)) (rows db))
    eqn:Hname; [done|].
  destruct (existsb (fun r => String.eqb (StoredPath r) (StoredPath p)) (rows db))
    eqn:Hpath; [done|].
  destruct (existsb (fun r => String.eqb (Hash r) (Hash p)) (rows db))
    eqn:Hhash; [done|].
  intros _. auto using existsb_fresh.
Qed.

Lemma NoDup_snoc_fresh {A} (l : list A) (x : A) :
  NoDup l -> ~ In x l -> NoDup (l ++ [x]).
Proof.
  intros Hnd Hx. apply NoDup_app. split; [done|].
  split; [|apply NoDup_singleton].
  intros y Hy ->%list_elem_of_singleton. by apply Hx, list_elem_of_In.
Qed.

(** An insertion keeps the indexes and the keys in order. *)
Lemma Create_keeps_catalog_ok env db p db' p' :
  catalog_ok db ->
  gorm.Create env db p = inr (db', p') ->
  catalog_ok db'
  /\ p' = with_ID (next_id db) p
  /\ rows db' = (rows db ++ [p'])%list.
Proof.
  intros (Hname & Hpath & Hhash & Hid & Hlt). unfold gorm.Create.
  destruct (fault env F_DBCreate); [done|].
  destruct (gorm.unique_violation db p) eqn:Huniq; [done|].
  intros [= <- <-]. split; [|done].
  apply unique_violation_fresh in Huniq as (Hn & Hp & Hh).
  unfold catalog_ok; cbn [rows next_id]. rewrite !map_app; cbn [map].
  cbn [Filename StoredPath Hash ID with_ID].
  split; [by apply NoDup_snoc_fresh|].
  split; [by apply NoDup_snoc_fresh|].
  split; [by apply NoDup_snoc_fresh|].
  split.
  - apply NoDup_snoc_fresh; [done|].
    intros (r & Hr & Hin)%in_map_iff.
    rewrite Forall_forall in Hlt. apply list_elem_of_In, Hlt in Hin. lia.
  - apply Forall_app. split.
    + eapply Forall_impl; [exact Hlt|]. intros r Hr; simpl in *. lia.
    + apply Forall_singleton. simpl. lia.
Qed.

Lemma UploadPhoto_store_keeps_catalog_ok env file st w res w' :
  catalog_ok (catalog w) ->
  UploadPhoto_store s env file st w = (res, w') ->
  catalog_ok (catalog w').
Proof.
  intros Hok Hstore. apply UploadPhoto_store_world in Hstore. cbv zeta in Hstore.
  destruct Hstore as [[_ [->|[->| ->]]]|(db & photo & _ & Hcreate & ->)];
    try done.
  by apply (Create_keeps_catalog_ok _ _ _ _ _ Hok) in Hcreate as [? _].
Qed.

(** The catalog after an upload: the one before, or the one an
    insertion into it gave. *)
Lemma UploadPhoto_catalog_cases env file w res w' :
  UploadPhoto P s env file w = (res, w') ->
  catalog w' = catalog w
  \/ exists db photo,
       gorm.Create env (catalog w) (new_row P s env file) = inr (db, photo)
       /\ catalog w' = db.
Proof.
  intros Hup. apply UploadPhoto_worlds in Hup. cbv zeta in Hup.
  destruct Hup as [[_ [->|[->|[->|[->| ->]]]]]|(db & photo & _ & Hcreate & ->)];
    [by left..|].
  right. by exists db, photo.
Qed.

(** X4.  No upload breaks a unique index or reuses a key: the rows keep
    distinct filenames, stored paths, hashes and keys, all keys below
    the next one. *)
Theorem UploadPhoto_keeps_catalog_ok env file w res w' :
  catalog_ok (catalog w) ->
  UploadPhoto P s env file w = (res, w') ->
  catalog_ok (catalog w').
Proof.
  intros Hok Hup.
  destruct (UploadPhoto_catalog_cases _ _ _ _ _ Hup)
    as [->|(db & photo & Hcreate & ->)]; [done|].
  by apply (Create_keeps_catalog_ok _ _ _ _ _ Hok) in Hcreate as [? _].
Qed.

Lemma UploadPhoto_check_keeps_catalog env file w r w1 :
  UploadPhoto_check P env file w = (r, w1) -> catalog w1 = catalog w.
Proof.
  destruct r as [r|st]; intros Hcheck.
  - by apply UploadPhoto_check_stopped in Hcheck as [_ [->| ->]].
  - by apply UploadPhoto_check_staged in Hcheck as (-> & _).
Qed.

(** X5.  Two uploads that overlap, the second passing its look-up before the
    first has inserted its row, still leave the indexes intact; and when
    they carry the same bytes they do not both succeed. *)
Theorem UploadPhoto_overlapped_keeps_catalog_ok
    env1 env2 file1 file2 w r1 r2 w' :
  catalog_ok (catalog w) ->
  UploadPhoto_overlapped P s env1 env2 file1 file2 w = (r1, r2, w') ->
  catalog_ok (catalog w')
  /\ (fh_Content file1 = fh_Content file2 ->
      snd r1 <> None \/ snd r2 <> None).
Proof.
  intros Hok. unfold UploadPhoto_overlapped.
  destruct (UploadPhoto_check P env1 file1 w) as [[q1|st1] w1] eqn:Hc1.
  - pose proof (UploadPhoto_check_keeps_catalog _ _ _ _ _ Hc1) as Hcat1.
    apply UploadPhoto_check_stopped in Hc1 as [Herr _].
    destruct (UploadPhoto P s env2 file2 w1) as [q2 w2] eqn:Hup.
    intros [= <- <- <-]. split; [|by left].
    assert (Hok1 : catalog_ok (catalog w1)) by (by rewrite Hcat1).
    destruct (UploadPhoto_catalog_cases _ _ _ _ _ Hup)
      as [->|(db & photo & Hcreate & ->)]; [done|].
    by apply (Create_keeps_catalog_ok _ _ _ _ _ Hok1) in Hcreate as [? _].
  - pose proof (UploadPhoto_check_keeps_catalog _ _ _ _ _ Hc1) as Hcat1.
    destruct (UploadPhoto_check P env2 file2 w1) as [[q2|st2] w2] eqn:Hc2.
    + pose proof (UploadPhoto_check_keeps_catalog _ _ _ _ _ Hc2) as Hcat2.
      apply UploadPhoto_check_stopped in Hc2 as [Herr _].
      destruct (UploadPhoto_store s env1 file1 st1 w2) as [q1 w3] eqn:Hs1.
      intros [= <- <- <-]. split; [|by right].
      assert (Hok2 : catalog_ok (catalog w2)) by (by rewrite Hcat2, Hcat1).
      apply (UploadPhoto_store_keeps_catalog_ok _ _ _ _ _ _ Hok2 Hs1).
    + pose proof (UploadPhoto_check_keeps_catalog _ _ _ _ _ Hc2) as Hcat2.
      apply UploadPhoto_check_staged in Hc1 as (_ & Hst1 & _).
      apply UploadPhoto_check_staged in Hc2 as (_ & Hst2 & _).
      destruct (UploadPhoto_store s env1 file1 st1 w2) as [q1 w3] eqn:Hs1.
      destruct (UploadPhoto_store s env2 file2 st2 w3) as [q2 w4] eqn:Hs2.
      intros [= <- <- <-].
      assert (Hok2 : catalog_ok (catalog w2)) by (by rewrite Hcat2, Hcat1).
      assert (Hok3 : catalog_ok (catalog w3))
        by apply (UploadPhoto_store_keeps_catalog_ok _ _ _ _ _ _ Hok2 Hs1).
      split; [by apply (UploadPhoto_store_keeps_catalog_ok _ _ _ _ _ _ Hok3 Hs2)|].
      intros Hsame.
      apply UploadPhoto_store_world in Hs1, Hs2. cbv zeta in Hs1, Hs2.
      destruct Hs1 as [[Herr1 _]|(db1 & p1 & -> & Hcr1 & ->)]; [by left|].
      destruct Hs2 as [[Herr2 _]|(db2 & p2 & -> & Hcr2 & _)]; [by right|].
      exfalso.
      apply (Create_keeps_catalog_ok _ _ _ _ _ Hok2) in Hcr1
        as (_ & Hp1 & Hrows1).
      revert Hcr2. unfold gorm.Create.
      destruct (fault env2 F_DBCreate); [done|].
      cbn [catalog os_Remove set_catalog set_files write_file].
      edestruct (unique_violation_hash db1) as [column ->]; [| |done].
      * rewrite Hrows1, Hp1. apply in_app_iff. right. by left.
      * cbn [Hash with_ID]. rewrite Hst1, Hst2; cbn [st_hash].
        by rewrite Hsame.
Qed.
End CatalogInvariant.

Section CatalogInvariantExamples.
Import database service fixture.

Lemma empty_catalog_ok : catalog_ok (catalog empty_world).
Proof.
  unfold catalog_ok; simpl.
  repeat split; try apply NoDup_nil_2. apply Forall_nil_2.
Qed.

Lemma UploadPhoto_keeps_catalog_ok_witness :
  catalog_ok (catalog after_a_jpg).
Proof.
  apply (UploadPhoto_keeps_catalog_ok host svc (at_time march_2024)
           (upload "a.jpg" plain_A) empty_world (Some first_a_jpg, None)).
  - apply empty_catalog_ok.
  - vm_compute. reflexivity.
Defined.

Lemma UploadPhoto_overlapped_keeps_catalog_ok_witness :
  catalog_ok
    (catalog (snd (UploadPhoto_overlapped host svc
                     (at_time march_2024) (at_time march_2024_later)
                     (upload "a.jpg" plain_A) (upload "b.jpg" plain_A)
                     empty_world)))
  /\ (plain_A = plain_A ->
      snd (Some first_a_jpg, @None error) <> None
      \/ snd (@None Photo,
              Some (ErrSaveMetadata
                      (sqlite_ErrConstraintUnique "photos.hash"))) <> None).
Proof.
  apply (UploadPhoto_overlapped_keeps_catalog_ok host svc
           (at_time march_2024) (at_time march_2024_later)
           (upload "a.jpg" plain_A) (upload "b.jpg" plain_A) empty_world).
  - apply empty_catalog_ok.
  - vm_compute. reflexivity.
Defined.
End CatalogInvariantExamples.

(** ** A name taken twice in one month *)
Section NameCollision.
Import database service.
Variable P : Platform.
Variable s : PhotoService.

Lemma find_none_all {A} (f : A -> bool) (l : list A) :
  (forall x, In x l -> f x = false) -> List.find f l = None.
Proof.
  induction l as [|x l IH]; simpl; [done|]. intros Hall.
  rewrite (Hall x) by auto. apply IH. auto.
Qed.

(** With nothing failing and no row carrying the digest of the content,
    [UploadPhoto] goes on to store the staged upload. *)
Lemma UploadPhoto_reaches_store env file w :
  fault_free env ->
  exif_tolerated P (fh_Content file) ->
  (forall e, In e (rows (catalog w)) -> Hash e <> md5_hex P (fh_Content file)) ->
  UploadPhoto P s env file w
  = UploadPhoto_store s env file
      {| st_uploadDate := now env;
         st_tempFilePath := tempFilePath P file;
         st_photoOrganizeDate := default (now env) (capture P (fh_Content file));
         st_exifDateTime := capture P (fh_Content file);
         st_hash := md5_hex P (fh_Content file) |}
      (write_file (tempFilePath P file) (fh_Content file) w).
Proof.
  intros Hff Htol Hnew.
  unfold UploadPhoto, UploadPhoto_check. fold (tempFilePath P file).
  rewrite !Hff, write_file_twice.
  rewrite (ExtractExifData_staged P _ _ _ _ (Hff _)).
  unfold calculateMD5Hash, open_read. rewrite !Hff, os_Open_write_file.
  unfold gorm.First_by_hash. rewrite Hff.
  cbn [catalog write_file set_files].
  rewrite find_none_all.
  2:{ intros e He. apply String.eqb_neq. by apply Hnew. }
  unfold capture.
  destruct (exif_Decode P (fh_Content file)) as [err|x] eqn:Hdec.
  - by apply Htol, tolerated_iff in Hdec as ->.
  - by destruct (goexif.DateTime x).
Qed.

(** X6.  When a row already carries the name of the upload and is stored at
    the place the upload goes to (same name, same year and month), an
    upload of new content writes over the stored file of that row, is
    then refused by the unique index on the filename, and removes the
    file: the row stays in the catalog and its file is gone. *)
Theorem UploadPhoto_name_collision_removes_stored_file env file w r :
  fault_free env ->
  exif_tolerated P (fh_Content file) ->
  (forall e, In e (rows (catalog w)) -> Hash e <> md5_hex P (fh_Content file)) ->
  In r (rows (catalog w)) ->
  Filename r = fh_Filename file ->
  StoredPath r = destination P s env file ->
  exists w',
    UploadPhoto P s env file w
    = ((None,
        Some (ErrSaveMetadata (sqlite_ErrConstraintUnique "photos.filename"))),
       w')
    /\ catalog w' = catalog w
    /\ files w' !! StoredPath r = None.
Proof.
  intros Hff Htol Hnew Hin Hname Hpath.
  rewrite (UploadPhoto_reaches_store env file w Hff Htol Hnew).
  unfold UploadPhoto_store, storage.SavePhoto, gorm.Create.
  rewrite !Hff. cbn [st_photoOrganizeDate st_tempFilePath].
  fold (placement (FileManager s)
          (default (now env) (capture P (fh_Content file))) (fh_Filename file)).
  fold (destination P s env file).
  cbn [catalog write_file set_files].
  rewrite (unique_violation_filename (catalog w) _ r Hin) by done.
  eexists. split; [reflexivity|]. split; [done|].
  rewrite Hpath. unfold os_Remove, set_files; cbn [files].
  destruct (decide (destination P s env file = tempFilePath P file)) as [->|Hne].
  - apply lookup_delete_eq.
  - rewrite lookup_delete_ne by done. apply lookup_delete_eq.
Qed.
End NameCollision.

Section NameCollisionExamples.
Import database service fixture.

Lemma UploadPhoto_name_collision_removes_stored_file_witness :
  exists w',
    UploadPhoto host svc (at_time march_2024_later) (upload "a.jpg" plain_B)
      after_a_jpg
    = ((None,
        Some (ErrSaveMetadata (sqlite_ErrConstraintUnique "photos.filename"))),
       w')
    /\ catalog w' = catalog after_a_jpg
    /\ files w' !! StoredPath first_a_jpg = None.
Proof.
  apply (UploadPhoto_name_collision_removes_stored_file host svc
           (at_time march_2024_later) (upload "a.jpg" plain_B) after_a_jpg
           first_a_jpg).
  - intros f. reflexivity.
  - intros err Herr. vm_compute in Herr. injection Herr as <-. by left.
  - intros e [<-|[]]. vm_compute. discriminate.
  - by left.
  - reflexivity.
  - vm_compute. reflexivity.
Defined.
End NameCollisionExamples.

(** ** Extraction and placement on their own *)
Section ExtractAndPlace.
Import database service.
Variable P : Platform.

(** X7.  [ExtractExifData] returns a record only with a date in it, the date
    the decoder found in the file; and it fails only when the file
    cannot be opened or the decoder reports an error other than the end
    of the file or the absence of EXIF data. *)
Theorem ExtractExifData_outcomes env path w :
  (forall d, exif.ExtractExifData P env path w = inr (Some d) ->
     exists t content x,
       exif.DateTime d = Some t
       /\ files w !! path = Some content
       /\ exif_Decode P content = inr x
       /\ goexif.DateTime x = Some t)
  /\ (forall err, exif.ExtractExifData P env path w = inl err ->
        (exists cause, err = ErrExifOpen cause)
        \/ (exists content cause,
              files w !! path = Some content
              /\ exif_Decode P content = inl cause
              /\ err = ErrExifDecode cause
              /\ cause <> io_EOF /\ Error cause <> "no exif data")).
Proof.
  unfold exif.ExtractExifData, open_read, os_Open.
  destruct (fault env F_ExifOpen) as [e|].
  { split; [done|]. intros err [= <-]. left. by eexists. }
  destruct (files w !! path) as [content|] eqn:Hfile.
  2:{ split; [done|]. intros err [= <-]. left. by eexists. }
  destruct (exif_Decode P content) as [cause|x] eqn:Hdec.
  - destruct (error_eqb_EOF cause || String.eqb (Error cause) "no exif data")
      eqn:Htol; [done|].
    split; [done|]. intros err [= <-]. right. exists content, cause.
    apply not_true_iff_false in Htol. rewrite tolerated_iff in Htol.
    repeat split; try done; intros H; apply Htol; auto.
  - destruct (goexif.DateTime x) as [t|] eqn:Ht; cbn; [|done].
    split; [|done]. intros d [= <-]. by exists t, content, x.
Qed.

(** X8.  [SavePhoto] leaves the catalog and every path but its target alone;
    when it succeeds the target is [<root>/<year>/<month>/<name>] and
    holds the bytes of the upload, whatever was there before; when it
    fails before copying it changes nothing. *)
Theorem SavePhoto_effects fm env file photoDate w r w' :
  storage.SavePhoto fm env file photoDate w = (r, w') ->
  let target := placement fm photoDate (fh_Filename file) in
  catalog w' = catalog w
  /\ (forall path, path <> target -> files w' !! path = files w !! path)
  /\ (forall p, r = inr p ->
        p = target /\ files w' !! target = Some (fh_Content file))
  /\ (forall err, r = inl err ->
        (forall path cause, err <> ErrSaveCopy path cause) -> w' = w).
Proof.
  unfold storage.SavePhoto.
  fold (placement fm photoDate (fh_Filename file)).
  set (target := placement _ _ _). cbv zeta.
  destruct (fault env F_SaveMkdir); [intros [= <- <-]; by repeat split|].
  destruct (fault env F_SaveOpen); [intros [= <- <-]; by repeat split|].
  destruct (fault env F_SaveCreate); [intros [= <- <-]; by repeat split|].
  destruct (fault env F_SaveCopy) as [e|]; intros [= <- <-].
  - split; [done|]. split.
    + intros path Hne. unfold write_file; cbn. by rewrite lookup_insert_ne.
    + split; [done|]. intros err [= <-] Hnot. by destruct (Hnot target e).
  - split; [done|]. split.
    + intros path Hne. unfold write_file; cbn. by rewrite lookup_insert_ne.
    + split; [|done]. intros p [= <-]. split; [done|].
      unfold write_file; cbn. apply lookup_insert_eq.
Qed.
End ExtractAndPlace.

Section ExtractAndPlaceExamples.
Import database service fixture.

Lemma SavePhoto_effects_witness :
  let target := placement (FileManager svc) march_2024_later "a.jpg" in
  catalog (write_file target plain_B after_a_jpg) = catalog after_a_jpg
  /\ (forall path, path <> target ->
        files (write_file target plain_B after_a_jpg) !! path
        = files after_a_jpg !! path)
  /\ (forall p, @inr error string target = inr p ->
        p = target
        /\ files (write_file target plain_B after_a_jpg) !! target
           = Some plain_B)
  /\ (forall err, @inr error string target = inl err ->
        (forall path cause, err <> ErrSaveCopy path cause) ->
        write_file target plain_B after_a_jpg = after_a_jpg).
Proof.
  apply (SavePhoto_effects (FileManager svc) (at_time march_2024_later)
           (upload "a.jpg" plain_B) march_2024_later after_a_jpg).
  reflexivity.
Defined.
End ExtractAndPlaceExamples.

(** ** LIKE *)
Section Like.

Lemma like_percent p t :
  sqlite.like (String "%" p) t
  = sqlite.like p t
    || match t with
       | EmptyString => false
       | String _ t' => sqlite.like (String "%" p) t'
       end.
Proof. by destruct t. Qed.

Lemma like_percent_all t : sqlite.like "%" t = true.
Proof.
  induction t as [|c t IH]; [done|].
  rewrite like_percent, IH. apply orb_true_r.
Qed.

Lemma like_percent_skip p a t :
  sqlite.like (String "%" p) t = true ->
  sqlite.like (String "%" p) (a ++ t) = true.
Proof.
  intros Ht. induction a as [|c a IH]; [done|].
  change (String.append (String c a) t) with (String c (String.append a t)).
  rewrite like_percent, IH. apply orb_true_r.
Qed.

Lemma like_prefix s s' p t :
  lowercase s' = lowercase s ->
  sqlite.like p t = true ->
  sqlite.like (s ++ p) (s' ++ t) = true.
Proof.
  revert s'. induction s as [|c s IH]; intros [|d s']; try done.
  change (String.append (String c s) p) with (String c (String.append s p)).
  change (String.append (String d s') t) with (String d (String.append s' t)).
  cbn [lowercase]. intros [= Hc Hs] Hp.
  specialize (IH s' Hs Hp).
  destruct (Ascii.eqb c "%") eqn:Hpercent.
  { apply Ascii.eqb_eq in Hpercent as ->.
    rewrite like_percent, like_percent, IH. by rewrite orb_true_r. }
  cbn [sqlite.like]. rewrite Hpercent.
  destruct (Ascii.eqb c "_"); [done|].
  by rewrite Hc, Ascii.eqb_refl.
Qed.

(** A text matches [%s%] as soon as it contains [s], letters compared
    without regard to case. *)
Lemma like_substring s s' a b :
  lowercase s' = lowercase s ->
  sqlite.like ("%" ++ s ++ "%") (a ++ s' ++ b) = true.
Proof.
  intros Hs.
  change (String.append "%" (String.append s "%"))
    with (String "%" (String.append s "%")).
  apply like_percent_skip.
  rewrite like_percent. apply orb_true_iff. left.
  apply like_prefix; [done|]. apply like_percent_all.
Qed.
End Like.

(** ** More on listing *)
Section ListingMore.
Import database service.
Variable P : Platform.

Lemma paginate_sub q (l : list Photo) :
  (length (query.paginate q l) <= length l)%nat
  /\ (forall n, query.limit q = Some n ->
        (length (query.paginate q l) <= Z.to_nat n)%nat)
  /\ (forall r, In r (query.paginate q l) -> In r l).
Proof.
  unfold query.paginate.
  assert (Hin : forall n (k : list Photo) r, In r (take n k) -> In r k).
  { intros n k r Hr%list_elem_of_In. apply list_elem_of_In.
    by apply (subseteq_take n k). }
  assert (Hin' : forall n (k : list Photo) r, In r (drop n k) -> In r k).
  { intros n k r Hr%list_elem_of_In. apply list_elem_of_In.
    by apply (subseteq_drop n k). }
  destruct (query.offset q) as [o|], (query.limit q) as [n|];
    rewrite ?length_take, ?length_drop;
    (split; [lia|split; [intros ? [= <-]; lia || idtac|eauto]]); done.
Qed.

(** What [Find] can return at all. *)
Lemma Find_rows env q db photos :
  query.Find P env q db = inr photos ->
  (length photos <= length (rows db))%nat
  /\ (forall n, query.limit q = Some n -> (length photos <= Z.to_nat n)%nat)
  /\ (forall r, In r photos ->
        In r (rows db) /\ forallb (fun cond => cond r) (query.wheres q) = true).
Proof.
  unfold query.Find. destruct (fault env F_DBFind); [done|].
  destruct (sqlite.order_terms P (query.orders q)) as [c|]; [|done].
  intros [= <-].
  set (selected := List.filter (fun r => forallb (fun cond => cond r)
                                           (query.wheres q)) (rows db)).
  pose proof (merge_sort_Permutation (sqlite.not_after c) selected) as Hperm.
  destruct (paginate_sub q (merge_sort (sqlite.not_after c) selected))
    as (Hlen & Hlim & Hin).
  rewrite (Permutation_length Hperm) in Hlen.
  split.
  - assert (Hsame : (length selected <= length (rows db))%nat).
    { unfold selected. clear. induction (rows db) as [|r l IH]; simpl; [lia|].
      destruct (forallb _ _); simpl; lia. }
    lia.
  - split; [done|]. intros r Hr%Hin.
    apply (filter_In (fun r => forallb (fun cond => cond r) (query.wheres q))
             r (rows db)).
    apply list_elem_of_In. apply list_elem_of_In in Hr.
    by rewrite Hperm in Hr.
Qed.

Lemma Find_page env q db limit offset :
  query.limit q = None -> query.offset q = None ->
  query.Find P env
    (when (0 <? offset) (query.Offset offset)
       (when (0 <? limit) (query.Limit limit) q)) db
  = match query.Find P env q db with
    | inl err => inl err
    | inr all => inr (page limit offset all)
    end.
Proof.
  intros Hl Ho. unfold query.Find, page, query.paginate, when.
  destruct (fault env F_DBFind); [done|].
  destruct (0 <? limit), (0 <? offset);
    cbn [query.orders query.wheres query.limit query.offset
         query.Limit query.Offset];
    rewrite ?Hl, ?Ho;
    by destruct (sqlite.order_terms P (query.orders q)).
Qed.

(** X9.  [limit] and [offset] cut the page out of the rows the same filter
    returns without them, after selection and ordering; a limit or an
    offset that is not positive cuts nothing. *)
Theorem GetPhotos_pages_after_ordering env filter db :
  GetPhotos P env filter db
  = match GetPhotos P env (unpaged filter) db with
    | inl err => inl err
    | inr all =>
        inr (page (PhotoFilter.Limit filter) (PhotoFilter.Offset filter) all)
    end.
Proof.
  unfold GetPhotos, year_end, month_end, year_start, month_start.
  change (PhotoFilter.Year (unpaged filter)) with (PhotoFilter.Year filter).
  change (PhotoFilter.Month (unpaged filter)) with (PhotoFilter.Month filter).
  change (PhotoFilter.Filename (unpaged filter))
    with (PhotoFilter.Filename filter).
  change (PhotoFilter.Tag (unpaged filter)) with (PhotoFilter.Tag filter).
  change (PhotoFilter.OrderBy (unpaged filter))
    with (PhotoFilter.OrderBy filter).
  change (PhotoFilter.Limit (unpaged filter)) with 0.
  change (PhotoFilter.Offset (unpaged filter)) with 0.
  destruct (negb (PhotoFilter.Month filter =? 0)
            && (PhotoFilter.Year filter =? 0)); [reflexivity|].
  assert (Hnone : forall (b1 b2 b3 b4 b5 : bool) (c1 c2 c3 c4 : Photo -> bool)
                          (t : string),
    let q' := when b4 (query.Where c4) (when b3 (query.Where c3)
                (when b2 (query.Where c2)
                   (when b1 (query.Where c1) query.Model))) in
    let q'' := if b5 then query.Order t q'
               else query.Order "upload_date DESC"
                      (query.Order "exif_date DESC" q') in
    query.limit q'' = None /\ query.offset q'' = None).
  { intros [] [] [] [] []; intros; split; reflexivity. }
  rewrite Find_page; [|apply Hnone..].
  rewrite Find_page; [|apply Hnone..].
  match goal with
  | |- context [query.Find P env ?q db] => destruct (query.Find P env q db)
  end; reflexivity.
Qed.

(** The statement [GetPhotos] builds: its conditions, in order, and its
    limit. *)
Lemma GetPhotos_query env filter db photos :
  GetPhotos P env filter db = inr photos ->
  exists q,
    query.Find P env q db = inr photos
    /\ query.wheres q
       = ((if negb (PhotoFilter.Year filter =? 0)
           then [date_clause (year_start filter) (year_end filter)] else [])
          ++ (if negb (PhotoFilter.Month filter =? 0)
              then [date_clause (month_start filter) (month_end filter)]
              else [])
          ++ (if negb (String.eqb (PhotoFilter.Filename filter) "")
              then [fun r => sqlite.like
                               ("%" ++ PhotoFilter.Filename filter ++ "%")
                               (Filename r)]
              else [])
          ++ (if negb (String.eqb (PhotoFilter.Tag filter) "")
              then [fun r => sqlite.like ("%" ++ PhotoFilter.Tag filter ++ "%")
                               (Tags r)]
              else []))%list
    /\ (0 < PhotoFilter.Limit filter ->
        query.limit q = Some (PhotoFilter.Limit filter)).
Proof.
  unfold GetPhotos.
  destruct (negb (PhotoFilter.Month filter =? 0)
            && (PhotoFilter.Year filter =? 0)); [done|].
  match goal with
  | |- context [query.Find P env ?q db] =>
      destruct (query.Find P env q db) as [err|l] eqn:Hfind; [done|];
      intros [= <-]; exists q
  end.
  split; [done|]. unfold when. split.
  - by destruct (negb (PhotoFilter.Year filter =? 0)),
      (negb (PhotoFilter.Month filter =? 0)),
      (negb (String.eqb (PhotoFilter.Filename filter) "")),
      (negb (String.eqb (PhotoFilter.Tag filter) "")),
      (negb (String.eqb (PhotoFilter.OrderBy filter) "")),
      (0 <? PhotoFilter.Limit filter), (0 <? PhotoFilter.Offset filter).
  - intros Hlim%Z.ltb_lt. rewrite Hlim.
    by destruct (0 <? PhotoFilter.Offset filter).
Qed.




(** X11.  A filter that sets nothing but the filename returns every row whose
    filename contains the text of the filter, letters compared without
    regard to case. *)
Theorem GetPhotos_finds_filename_substring env filter db :
  PhotoFilter.Year filter = 0 ->
  PhotoFilter.Month filter = 0 ->
  PhotoFilter.Tag filter = "" ->
  PhotoFilter.OrderBy filter = "" ->
  PhotoFilter.Limit filter <= 0 ->
  PhotoFilter.Offset filter <= 0 ->
  fault env F_DBFind = None ->
  exists photos,
    GetPhotos P env filter db = inr photos
    /\ forall r a s b,
         In r (rows db) ->
         Filename r = (a ++ s ++ b)%string ->
         lowercase s = lowercase (PhotoFilter.Filename filter) ->
         In r photos.
Proof.
  intros Hy Hm Htag Hord Hlim Hoff Hf. unfold GetPhotos.
  rewrite Hy, Hm, Htag, Hord.
  apply Z.ltb_ge in Hlim, Hoff. rewrite Hlim, Hoff.
  cbn [String.eqb negb when Z.eqb andb].
  match goal with
  | |- context [query.Find P env ?q db] =>
      assert (Hq : query.orders q = ["exif_date DESC"; "upload_date DESC"])
        by (by destruct (String.eqb (PhotoFilter.Filename filter) ""));
      destruct (Find_default P env q db Hf Hq) as (photos & -> & _ & Hin)
  end.
  exists photos. split; [done|]. intros r a s' b Hr Hname Hs.
  apply Hin.
  1,2: by destruct (String.eqb (PhotoFilter.Filename filter) "").
  split; [done|].
  destruct (String.eqb (PhotoFilter.Filename filter) ""); [done|].
  cbn. rewrite andb_true_r, Hname. by apply like_substring.
Qed.
End ListingMore.

Section ListingMoreExamples.
Import database service fixture.


Lemma GetPhotos_finds_filename_substring_witness :
  exists photos,
    GetPhotos host (at_time 0) (by_name "B.J") album = inr photos
    /\ forall r a s b,
         In r (rows album) ->
         Filename r = (a ++ s ++ b)%string ->
         lowercase s = lowercase "B.J" ->
         In r photos.
Proof.
  apply (GetPhotos_finds_filename_substring host (at_time 0) (by_name "B.J")
           album); try reflexivity; simpl; lia.
Defined.

Example filename_filter_ignores_case :
  GetPhotos host (at_time 0) (by_name "B.J") album
  = inr [row 2 "b.jpg" march_2024_later None].
Proof. vm_compute. reflexivity. Qed.
End ListingMoreExamples.

(** ** More on the timeline *)
Section TimelineMore.
Import database service.
Variable P : Platform.

Lemma StronglySorted_filter {A} (R : relation A) (f : A -> bool) l :
  StronglySorted R l -> StronglySorted R (List.filter f l).
Proof.
  induction 1 as [|x l Hl IH Hall]; simpl; [constructor|].
  destruct (f x); [|done]. constructor; [done|].
  apply Forall_forall. intros y Hy%list_elem_of_In%filter_In.
  rewrite Forall_forall in Hall. apply Hall, list_elem_of_In. tauto.
Qed.

Lemma StronglySorted_take {A} (R : relation A) n l :
  StronglySorted R l -> StronglySorted R (take n l).
Proof.
  intros H. rewrite <- (take_drop n l) in H.
  by apply StronglySorted_app_1_l in H.
Qed.

(** What the timeline is made of, for any limit. *)
Lemma GetPhotosByTimeline_runs env limitPerMonth db :
  fault env F_DBFind = None ->
  exists photos,
    photos ≡ₚ rows db
    /\ StronglySorted default_order photos
    /\ GetPhotosByTimeline P env limitPerMonth db
       = inr (fold_left (timeline_step limitPerMonth) photos ∅).
Proof.
  intros Hf. destruct (timeline_rows P env db Hf) as (photos & Hfind & Hperm & Hs).
  exists photos. split; [done|]. split; [done|].
  unfold GetPhotosByTimeline. by rewrite Hfind.
Qed.

(** X12.  With a positive limit every bucket of the timeline holds the first
    [limitPerMonth] rows of its year and month in the default order of
    the list: it is cut after ordering, it is never empty and never
    longer than the limit. *)
Theorem GetPhotosByTimeline_positive_limit env limitPerMonth db :
  fault env F_DBFind = None ->
  0 < limitPerMonth ->
  exists photos timeline,
    GetPhotosByTimeline P env limitPerMonth db = inr timeline
    /\ photos ≡ₚ rows db
    /\ StronglySorted default_order photos
    /\ forall y m b,
         bucket timeline y m = Some b ->
         b = take (Z.to_nat limitPerMonth) (List.filter (in_month y m) photos)
         /\ b <> []
         /\ Z.of_nat (length b) <= limitPerMonth
         /\ StronglySorted default_order b.
Proof.
  intros Hf Hpos.
  destruct (GetPhotosByTimeline_runs env limitPerMonth db Hf)
    as (photos & Hperm & Hsorted & Hrun).
  exists photos, (fold_left (timeline_step limitPerMonth) photos ∅).
  split; [done|]. split; [done|]. split; [done|].
  intros y m b. rewrite timeline_buckets. unfold capped.
  destruct (Z.eqb_spec limitPerMonth 0); [lia|].
  destruct (List.filter (in_month y m) photos) as [|p l] eqn:Hl; [done|].
  cbn [bucket_of fmap option_fmap option_map]. intros [= <-].
  split; [done|]. split.
  - destruct (Z.to_nat limitPerMonth) eqn:Hn; [lia|done].
  - split; [rewrite length_take; lia|].
    rewrite <- Hl. by apply StronglySorted_take, StronglySorted_filter.
Qed.

(** X13.  Whatever the limit, the timeline has a bucket for a year and a
    month exactly when some row of the table is organized in that year
    and month, and the months of its buckets are months: 1 to 12. *)
Theorem GetPhotosByTimeline_bucket_keys env limitPerMonth db :
  fault env F_DBFind = None ->
  exists timeline,
    GetPhotosByTimeline P env limitPerMonth db = inr timeline
    /\ forall y m,
         (is_Some (bucket timeline y m)
          <-> exists r, In r (rows db)
                        /\ time.Year (dateToUse r) = y
                        /\ time.Month (dateToUse r) = m)
         /\ (is_Some (bucket timeline y m) -> 1 <= m <= 12).
Proof.
  intros Hf.
  destruct (GetPhotosByTimeline_runs env limitPerMonth db Hf)
    as (photos & Hperm & _ & Hrun).
  exists (fold_left (timeline_step limitPerMonth) photos ∅).
  split; [done|]. intros y m. rewrite timeline_buckets.
  assert (Hiff : is_Some (capped limitPerMonth
                            <$> bucket_of (List.filter (in_month y m) photos))
                 <-> exists r, In r (rows db)
                               /\ time.Year (dateToUse r) = y
                               /\ time.Month (dateToUse r) = m).
  { rewrite fmap_is_Some. split.
    - destruct (List.filter (in_month y m) photos) as [|p l] eqn:Hl;
        [by intros [? [=]]|]. intros _.
      assert (Hp : In p (List.filter (in_month y m) photos))
        by (rewrite Hl; by left).
      apply filter_In in Hp as [Hp Hym]. exists p.
      unfold in_month in Hym. apply andb_true_iff in Hym as [Hy Hm].
      apply Z.eqb_eq in Hy, Hm. split; [|done].
      apply list_elem_of_In. rewrite <- Hperm. by apply list_elem_of_In.
    - intros (r & Hr & Hy & Hm).
      assert (Hin : In r (List.filter (in_month y m) photos)).
      { apply filter_In. split.
        - apply list_elem_of_In. rewrite Hperm. by apply list_elem_of_In.
        - unfold in_month. rewrite Hy, Hm, !Z.eqb_refl. done. }
      destruct (List.filter (in_month y m) photos); [done|]. by eexists. }
  split; [done|]. intros (r & _ & _ & <-)%Hiff. apply Month_range.
Qed.
End TimelineMore.

Section TimelineMoreExamples.
Import database service fixture.

Lemma GetPhotosByTimeline_positive_limit_witness :
  exists photos timeline,
    GetPhotosByTimeline host (at_time 0) 1 album = inr timeline
    /\ photos ≡ₚ rows album
    /\ StronglySorted default_order photos
    /\ forall y m b,
         bucket timeline y m = Some b ->
         b = take (Z.to_nat 1) (List.filter (in_month y m) photos)
         /\ b <> []
         /\ Z.of_nat (length b) <= 1
         /\ StronglySorted default_order b.
Proof.
  apply (GetPhotosByTimeline_positive_limit host (at_time 0) 1 album);
    [reflexivity|lia].
Defined.

Lemma GetPhotosByTimeline_bucket_keys_witness :
  exists timeline,
    GetPhotosByTimeline host (at_time 0) 1 album = inr timeline
    /\ forall y m,
         (is_Some (bucket timeline y m)
          <-> exists r, In r (rows album)
                        /\ time.Year (dateToUse r) = y
                        /\ time.Month (dateToUse r) = m)
         /\ (is_Some (bucket timeline y m) -> 1 <= m <= 12).
Proof.
  apply (GetPhotosByTimeline_bucket_keys host (at_time 0) 1 album).
  reflexivity.
Defined.
End TimelineMoreExamples.

(** ** The upload handler *)
Section UploadHandler.
Import database service handlers.
Variable P : Platform.
Variable s : PhotoService.

(** What one turn of the loop does to the lists, the world and the
    catalog. *)
Lemma upload_one_step b item :
  let b' := upload_one P s b item in
  (passes_checks item = false ->
   world b' = world b /\ uploadedPhotos b' = uploadedPhotos b)
  /\ (passes_checks item = true ->
      world b' = snd (UploadPhoto P s (fst item) (snd item) (world b)))
  /\ (length (uploadedPhotos b') + length (errors b')
      = S (length (uploadedPhotos b) + length (errors b)))%nat
  /\ (exists new,
        rows (catalog (world b')) = (rows (catalog (world b)) ++ new)%list
        /\ uploadedPhotos b' = (uploadedPhotos b ++ map entry_of new)%list)
  /\ (catalog_ok (catalog (world b)) -> catalog_ok (catalog (world b'))).
Proof.
  destruct item as [env file]. unfold upload_one, passes_checks; cbn [fst snd].
  destruct (allowed_type file); cbn [negb andb].
  2:{ cbn. rewrite length_app; cbn.
      split; [done|]. split; [done|]. split; [lia|].
      split; [|done]. exists []. by rewrite !app_nil_r. }
  destruct (maxUploadSize <? fh_Size file); cbn [negb].
  { cbn. rewrite length_app; cbn.
    split; [done|]. split; [done|]. split; [lia|].
    split; [|done]. exists []. by rewrite !app_nil_r. }
  destruct (UploadPhoto P s env file (world b)) as [res w] eqn:Hup.
  assert (Hok : catalog_ok (catalog (world b)) -> catalog_ok (catalog w)).
  { intros Hok.
    destruct (UploadPhoto_catalog_cases P s _ _ _ _ _ Hup)
      as [->|(db & row & Hcreate & ->)]; [done|].
    by apply (Create_keeps_catalog_ok _ _ _ _ _ Hok) in Hcreate as [? _]. }
  destruct (UploadPhoto_outcome P s _ _ _ _ _ Hup) as [[Herr Hcat]|[photo ->]].
  - destruct res as [[photo|] [err|]]; try done;
      cbn; rewrite length_app; cbn;
      (split; [done|]); (split; [done|]); (split; [lia|]); (split; [|done]);
      exists []; by rewrite Hcat, !app_nil_r.
  - cbn. rewrite length_app; cbn.
    split; [done|]. split; [done|]. split; [lia|]. split; [|done].
    exists [photo]. split; [|done].
    by apply UploadPhoto_success in Hup as (_ & _ & _ & _ & ->).
Qed.

(** The loop over a whole batch. *)
Lemma upload_all_steps files b :
  let b' := fold_left (upload_one P s) files b in
  (length (uploadedPhotos b') + length (errors b')
   = length files + (length (uploadedPhotos b) + length (errors b)))%nat
  /\ (exists new,
        rows (catalog (world b')) = (rows (catalog (world b)) ++ new)%list
        /\ uploadedPhotos b' = (uploadedPhotos b ++ map entry_of new)%list)
  /\ (catalog_ok (catalog (world b)) -> catalog_ok (catalog (world b')))
  /\ world b' = world (fold_left (upload_one P s) (List.filter passes_checks files) b)
  /\ uploadedPhotos b'
     = uploadedPhotos
         (fold_left (upload_one P s) (List.filter passes_checks files) b).
Proof.
  revert b. induction files as [|item files IH]; intros b; cbn [fold_left].
  { cbn. split; [done|]. split; [|done]. exists []. by rewrite !app_nil_r. }
  destruct (upload_one_step b item) as (Hrej & Hadm & Hlen & Hnew & Hok).
  destruct (IH (upload_one P s b item)) as (Hlen' & Hnew' & Hok' & Hw & Hu).
  cbv zeta in *. split; [cbn [length]; lia|]. split.
  { destruct Hnew as (new & Hrows & Hup). destruct Hnew' as (new' & Hrows' & Hup').
    exists (new ++ new')%list.
    by rewrite Hrows', Hrows, Hup', Hup, map_app, !app_assoc. }
  split; [auto|].
  cbn [List.filter]. destruct (passes_checks item) eqn:Hitem; [done|].
  destruct (Hrej eq_refl) as [Hw0 Hu0].
  rewrite Hw, Hu. clear -Hw0 Hu0.
  generalize (List.filter passes_checks files). intros l.
  revert Hw0 Hu0. generalize (upload_one P s b item). intros b1.
  revert b b1. induction l as [|x l IHl]; intros b b1 Hw Hu; [done|].
  cbn [fold_left]. apply IHl.
  - unfold upload_one. destruct x as [env file]. rewrite Hw.
    repeat case_match; done.
  - unfold upload_one. destruct x as [env file]. rewrite Hw, Hu.
    repeat case_match; done.
Qed.

Lemma UploadPhotoHandler_loop files w :
  files <> [] ->
  let b := fold_left (upload_one P s) files
             {| uploadedPhotos := []; errors := []; world := w |} in
  UploadPhotoHandler P s (Some files) w
  = (if (0 <? length (errors b))%nat
     then UploadMultiStatus (uploadedPhotos b) (errors b)
     else UploadOK (uploadedPhotos b), world b).
Proof.
  intros Hne. unfold UploadPhotoHandler.
  destruct files; [done|]. cbn [length Nat.eqb]. by case_match.
Qed.

(** X14.  Every file of a batch is answered exactly once: the handler answers
    400 only to a form it cannot read or that has no file, 200 with one
    descriptor per file when no file failed, and 207 otherwise, the two
    lists together having one element per file. *)
Theorem UploadPhotoHandler_accounts_for_every_file form w resp w' :
  UploadPhotoHandler P s form w = (resp, w') ->
  match resp with
  | UploadBadRequest => (form = None \/ form = Some []) /\ w' = w
  | UploadOK uploaded =>
      exists files, form = Some files /\ length uploaded = length files
  | UploadMultiStatus uploaded errors =>
      exists files,
        form = Some files /\ errors <> []
        /\ (length uploaded + length errors = length files)%nat
  end.
Proof.
  destruct form as [files|]; [|intros [= <- <-]; auto].
  destruct files as [|item files]; [intros [= <- <-]; auto|].
  rewrite UploadPhotoHandler_loop by done. cbv zeta.
  destruct (upload_all_steps (item :: files)
              {| uploadedPhotos := []; errors := []; world := w |})
    as (Hlen & _).
  cbv zeta in Hlen. cbn [uploadedPhotos errors length] in Hlen.
  set (b := fold_left _ _ _) in *.
  destruct (Nat.ltb_spec 0 (length (errors b))); intros [= <- <-].
  - exists (item :: files). split; [done|]. split; [|cbn [length]; lia].
    intros Hnil. rewrite Hnil in *. cbn in *. lia.
  - exists (item :: files). split; [done|]. cbn [length]. lia.
Qed.

(** X15.  The files the handler refuses for their type or their size change
    nothing for the others: the world and the uploaded list are those
    of the same request without the refused files. *)
Theorem UploadPhotoHandler_ignores_refused_files files w :
  snd (UploadPhotoHandler P s (Some files) w)
  = snd (UploadPhotoHandler P s (Some (List.filter passes_checks files)) w)
  /\ uploaded_of (fst (UploadPhotoHandler P s (Some files) w))
     = uploaded_of
         (fst (UploadPhotoHandler P s (Some (List.filter passes_checks files)) w)).
Proof.
  destruct (upload_all_steps files
              {| uploadedPhotos := []; errors := []; world := w |})
    as (_ & _ & _ & Hw & Hu).
  cbv zeta in Hw, Hu.
  assert (Hshape : forall l,
    snd (UploadPhotoHandler P s (Some l) w)
    = world (fold_left (upload_one P s) l
               {| uploadedPhotos := []; errors := []; world := w |})
    /\ uploaded_of (fst (UploadPhotoHandler P s (Some l) w))
       = uploadedPhotos
           (fold_left (upload_one P s) l
              {| uploadedPhotos := []; errors := []; world := w |})).
  { intros [|x l]; [done|].
    rewrite UploadPhotoHandler_loop by done. cbv zeta. by case_match. }
  destruct (Hshape files) as [-> ->].
  destruct (Hshape (List.filter passes_checks files)) as [-> ->]. done.
Qed.

(** X16.  The uploaded list of the answer describes exactly the rows the
    request added to the catalog, in order: nothing else is added, no
    row is changed or removed, and the unique indexes and the keys stay
    in order. *)
Theorem UploadPhotoHandler_reports_new_rows form w resp w' :
  UploadPhotoHandler P s form w = (resp, w') ->
  (exists new,
     rows (catalog w') = (rows (catalog w) ++ new)%list
     /\ uploaded_of resp = map entry_of new)
  /\ (catalog_ok (catalog w) -> catalog_ok (catalog w')).
Proof.
  destruct form as [files|].
  2:{ intros [= <- <-]. split; [|done]. exists []. by rewrite app_nil_r. }
  destruct files as [|item files].
  { intros [= <- <-]. split; [|done]. exists []. by rewrite app_nil_r. }
  rewrite UploadPhotoHandler_loop by done. cbv zeta.
  destruct (upload_all_steps (item :: files)
              {| uploadedPhotos := []; errors := []; world := w |})
    as (_ & Hnew & Hok & _).
  cbv zeta in Hnew, Hok. cbn [uploadedPhotos world app] in Hnew, Hok.
  set (b := fold_left _ _ _) in *.
  by destruct (0 <? length (errors b))%nat; intros [= <- <-].
Qed.
End UploadHandler.

Section UploadHandlerExamples.
Import database service handlers fixture.

(** A batch of three: a photo, a file too large, another photo. *)
Example batch_of_three :
  UploadPhotoHandler host svc
    (Some [(at_time march_2024, upload "a.jpg" plain_A);
           (at_time march_2024, oversized "big.jpg");
           (at_time march_2024_later, upload "d.jpg" dated_2023)])
    empty_world
  = (UploadMultiStatus
       [entry_of first_a_jpg;
        {| ue_id := 2; ue_filename := "d.jpg";
           ue_stored_at := "/srv/photos/2023/06/d.jpg";
           ue_exif_date := Some june_2023 |}]
       [{| ee_filename := "big.jpg"; ee_error := SizeExceeded |}],
     snd (UploadPhotoHandler host svc
            (Some [(at_time march_2024, upload "a.jpg" plain_A);
                   (at_time march_2024_later, upload "d.jpg" dated_2023)])
            empty_world)).
Proof. vm_compute. reflexivity. Qed.

Lemma UploadPhotoHandler_accounts_for_every_file_witness :
  exists files,
    Some [(at_time march_2024, upload "a.jpg" plain_A);
          (at_time march_2024, oversized "big.jpg")] = Some files
    /\ [{| ee_filename := "big.jpg"; ee_error := SizeExceeded |}] <> []
    /\ (length [entry_of first_a_jpg]
        + length [{| ee_filename := "big.jpg"; ee_error := SizeExceeded |}]
        = length files)%nat.
Proof.
  apply (UploadPhotoHandler_accounts_for_every_file host svc
           (Some [(at_time march_2024, upload "a.jpg" plain_A);
                  (at_time march_2024, oversized "big.jpg")])
           empty_world
           (UploadMultiStatus [entry_of first_a_jpg]
              [{| ee_filename := "big.jpg"; ee_error := SizeExceeded |}])
           after_a_jpg).
  vm_compute. reflexivity.
Defined.

Lemma UploadPhotoHandler_reports_new_rows_witness :
  (exists new,
     rows (catalog after_a_jpg) = (rows (catalog empty_world) ++ new)%list
     /\ uploaded_of
          (UploadMultiStatus [entry_of first_a_jpg]
             [{| ee_filename := "big.jpg"; ee_error := SizeExceeded |}])
        = map entry_of new)
  /\ (catalog_ok (catalog empty_world) -> catalog_ok (catalog after_a_jpg)).
Proof.
  apply (UploadPhotoHandler_reports_new_rows host svc
           (Some [(at_time march_2024, upload "a.jpg" plain_A);
                  (at_time march_2024, oversized "big.jpg")])
           empty_world).
  vm_compute. reflexivity.
Defined.
End UploadHandlerExamples.

(** ** The list handler *)
Section ListHandler.
Import database service handlers.
Variable P : Platform.

(** X17.  A request that names a month and no year (or the year 0) is
    answered with status 500 and the error of [GetPhotos], not with
    status 400, whatever its other well-formed parameters. *)
Theorem GetPhotosHandler_month_without_year env q db month limit offset :
  numeric (q_year q) = Some 0 ->
  numeric (q_month q) = Some month ->
  month <> 0 ->
  numeric (q_limit q) = Some limit ->
  numeric (q_offset q) = Some offset ->
  GetPhotosHandler P env q db = ListInternalServerError ErrMonthRequiresYear.
Proof.
  intros Hy Hm Hne Hl Ho. unfold GetPhotosHandler. rewrite Hy, Hm, Hl, Ho.
  unfold GetPhotos. cbn [PhotoFilter.Month PhotoFilter.Year].
  apply Z.eqb_neq in Hne. by rewrite Hne.
Qed.
End ListHandler.

Section ListHandlerExamples.
Import database service handlers fixture.

Lemma GetPhotosHandler_month_without_year_witness :
  GetPhotosHandler host (at_time 0) (month_only "6") album
  = ListInternalServerError ErrMonthRequiresYear.
Proof.
  apply (GetPhotosHandler_month_without_year host (at_time 0)
           (month_only "6") album 6 0 0);
    try reflexivity. discriminate.
Defined.

Example list_handler_rejects_a_year_that_is_no_number :
  GetPhotosHandler host (at_time 0)
    {| q_year := "MMXXIV"; q_month := ""; q_filename := ""; q_tag := "";
       q_limit := ""; q_offset := ""; q_order_by := "" |} album
  = ListBadRequest "year".
Proof. vm_compute. reflexivity. Qed.
End ListHandlerExamples.
